(** * Controller remapper: a shallow embedding of [src/__init__.py]

    The add-on reads joystick records from a device node, keeps a table of
    "currently active" flags for edge detection, looks the logical button
    up in a mapping document and synthesises a key press and release for
    the mapped key combination.

    Conventions of the embedding.
    - Python [str] values are Rocq strings, read as ASCII text: the
      helpers of [Module Py] follow Python on code points below 128,
      which is what every literal of the program and every name of a Qt
      key is made of; a character above 127 has no case and is no space.
    - Python [dict]s are stdpp [gmap]s: [d.get(k)] is [d !! k],
      [d[k] = v] is [<[k:=v]> d] and [d.pop(k, None)] is [delete k d].
    - Integers are [Z]; bit tests use [Z.land]; bytes are [Byte.byte].
    - [print] calls only write diagnostics and are left out. *)

From Stdlib Require Import ZArith QArith Lia Bool List Ascii String Strings.Byte.
From Stdlib Require Import Floats.PrimFloat Numbers.Cyclic.Int63.Uint63.
From stdpp Require Import base option list strings pretty gmap.

Local Open Scope string_scope.
Local Open Scope list_scope.
Local Open Scope Z_scope.

(** ** Python string methods used by the program *)

Module Py.

Definition code (c : ascii) : Z := Z.of_N (N_of_ascii c).
Definition chr (z : Z) : ascii := ascii_of_N (Z.to_N z).

(** [str.isspace] on ASCII: tab, line feed, vertical tab, form feed,
    carriage return, the four separators 0x1c..0x1f and the space. *)
Definition isspace (c : ascii) : bool :=
  let n := code c in
  ((9 <=? n) && (n <=? 13)) || ((28 <=? n) && (n <=? 32)).

Definition lower_char (c : ascii) : ascii :=
  let n := code c in
  if (65 <=? n) && (n <=? 90) then chr (n + 32) else c.

Definition upper_char (c : ascii) : ascii :=
  let n := code c in
  if (97 <=? n) && (n <=? 122) then chr (n - 32) else c.

Fixpoint map_chars (f : ascii -> ascii) (s : string) : string :=
  match s with
  | EmptyString => EmptyString
  | String c r => String (f c) (map_chars f r)
  end.

(** [s.lower()] and [s.upper()] *)
Definition lower (s : string) : string := map_chars lower_char s.
Definition upper (s : string) : string := map_chars upper_char s.

(** [s.lstrip()], [s.rstrip()], [s.strip()] *)
Fixpoint lstrip (s : string) : string :=
  match s with
  | EmptyString => EmptyString
  | String c r => if isspace c then lstrip r else s
  end.

Fixpoint rstrip (s : string) : string :=
  match s with
  | EmptyString => EmptyString
  | String c r =>
      match rstrip r with
      | EmptyString => if isspace c then EmptyString else String c EmptyString
      | r' => String c r'
      end
  end.

Definition strip (s : string) : string := rstrip (lstrip s).

(** [s.split(sep)] for a one-character separator: [k] occurrences of
    the separator give [k + 1] parts, empty parts included. *)
Fixpoint split (sep : ascii) (s : string) : list string :=
  match s with
  | EmptyString => [EmptyString]
  | String c r =>
      if Ascii.eqb c sep then EmptyString :: split sep r
      else match split sep r with
           | p :: ps => String c p :: ps
           | [] => [String c EmptyString]
           end
  end.

(** Truth value of a [str]: the empty string is false. *)
Definition truthy (s : string) : bool :=
  match s with EmptyString => false | String _ _ => true end.

(** [x in xs] for a list of strings *)
Definition str_in (x : string) (xs : list string) : bool :=
  existsb (String.eqb x) xs.

(** [str(n)] for an integer, as an f-string formats it *)
Definition str_int (n : Z) : string := pretty n.

End Py.

(** ** The Qt names the program refers to

    Modelled from the spec: the namespace [Qt] of the host toolkit, which
    is not part of the repository. The program reads key codes from it by
    attribute access, either written out ([Qt.Key_Space]) or computed
    ([getattr(Qt, "Key_" + c, None)]): a single character names the
    corresponding letter or digit key, and the named keys are those of
    the table of [get_key_code]. The values are those of Qt's [Key] and
    [KeyboardModifier] enumerations, read as integers. *)

Module Qt.

Definition Key_Space : Z := 0x20.
Definition Key_Escape : Z := 0x01000000.
Definition Key_Tab : Z := 0x01000001.
Definition Key_Backspace : Z := 0x01000003.
Definition Key_Return : Z := 0x01000004.
Definition Key_Enter : Z := 0x01000005.
Definition Key_Delete : Z := 0x01000007.
Definition Key_Home : Z := 0x01000010.
Definition Key_End : Z := 0x01000011.
Definition Key_Left : Z := 0x01000012.
Definition Key_Up : Z := 0x01000013.
Definition Key_Right : Z := 0x01000014.
Definition Key_Down : Z := 0x01000015.
Definition Key_PageUp : Z := 0x01000016.
Definition Key_PageDown : Z := 0x01000017.
Definition Key_F1 : Z := 0x01000030.
Definition Key_F2 : Z := 0x01000031.
Definition Key_F3 : Z := 0x01000032.
Definition Key_F4 : Z := 0x01000033.
Definition Key_F5 : Z := 0x01000034.
Definition Key_F6 : Z := 0x01000035.
Definition Key_F7 : Z := 0x01000036.
Definition Key_F8 : Z := 0x01000037.
Definition Key_F9 : Z := 0x01000038.
Definition Key_F10 : Z := 0x01000039.
Definition Key_F11 : Z := 0x0100003a.
Definition Key_F12 : Z := 0x0100003b.

(** The keys whose name is [Key_] followed by one character are the
    digits [Key_0] .. [Key_9] and the letters [Key_A] .. [Key_Z]; the
    code of each is the character's code. *)
Definition one_char_key (c : ascii) : option Z :=
  let n := Py.code c in
  if ((48 <=? n) && (n <=? 57)) || ((65 <=? n) && (n <=? 90))
  then Some n else None.

(** [getattr(Qt, "Key_" + suffix, None)] for the suffixes the program
    can build, which have exactly one character. *)
Definition getattr_Key (suffix : string) : option Z :=
  match suffix with
  | String c EmptyString => one_char_key c
  | _ => None
  end.

Definition NoModifier : Z := 0x00000000.
Definition ShiftModifier : Z := 0x02000000.
Definition ControlModifier : Z := 0x04000000.
Definition AltModifier : Z := 0x08000000.

End Qt.

(** A synthetic key event, [QKeyEvent(type, key, modifiers, "")] *)
Inductive QEventType := KeyPress | KeyRelease.

Record QKeyEvent := {
  ev_type : QEventType;
  ev_key : Z;
  ev_modifiers : Z;
  ev_text : string
}.

(** ** Module constants *)

Definition DEFAULT_MAPPINGS_items : list (string * string) :=
  [ ("A", " ");
    ("B", "Return");
    ("X", "z");
    ("Y", "x");
    ("LEFT", "Left");
    ("RIGHT", "Right");
    ("UP", "Up");
    ("DOWN", "Down");
    ("LEFT_SHOULDER", "Ctrl+Shift+z");
    ("RIGHT_SHOULDER", "Ctrl+z");
    ("START", "Return");
    ("SELECT", "Backspace");
    ("LEFT_TRIGGER", "Ctrl+Shift+z");
    ("RIGHT_TRIGGER", "Ctrl+y") ].

Definition DEFAULT_MAPPINGS : gmap string string :=
  list_to_map DEFAULT_MAPPINGS_items.

Definition JS_EVENT_BUTTON : Z := 0x01.
Definition JS_EVENT_AXIS : Z := 0x02.
Definition JS_EVENT_INIT : Z := 0x80.

Definition CONTROLLER_BUTTONS : gmap Z string :=
  list_to_map
    [ (0, "A"); (1, "B"); (2, "X"); (3, "Y");
      (4, "LEFT_SHOULDER"); (5, "RIGHT_SHOULDER");
      (6, "SELECT"); (7, "START");
      (8, "LEFT_STICK"); (9, "RIGHT_STICK");
      (10, "LEFT_TRIGGER"); (11, "RIGHT_TRIGGER") ].

(** [struct.calcsize("@IhBB")]: a 4-byte unsigned at offset 0, a 2-byte
    signed at offset 4 and two single bytes at offsets 6 and 7. *)
Definition EVENT_SIZE : nat := 8.

(** ** Key combinations *)

(** [ControllerRemapper.parse_key_combination]: the loop over the parts,
    with [modifiers] and [key] as the loop state. *)
Fixpoint parse_parts (parts : list string)
    (modifiers : list string) (key : option string)
    : list string * option string :=
  match parts with
  | [] => (modifiers, key)
  | part :: rest =>
      let part := Py.lower (Py.strip part) in
      if Py.str_in part ["ctrl"; "control"] then
        parse_parts rest (modifiers ++ ["ctrl"]) key
      else if Py.str_in part ["shift"] then
        parse_parts rest (modifiers ++ ["shift"]) key
      else if Py.str_in part ["alt"] then
        parse_parts rest (modifiers ++ ["alt"]) key
      else
        parse_parts rest modifiers (Some part)
  end.

Definition parse_key_combination (combo : string)
    : list string * option string :=
  let parts := Py.split "+" combo in
  parse_parts parts [] None.

(** The dictionary literal of [get_key_code] *)
Definition special_keys : gmap string Z :=
  list_to_map
    [ ("space", Qt.Key_Space);
      ("return", Qt.Key_Return);
      ("enter", Qt.Key_Enter);
      ("backspace", Qt.Key_Backspace);
      ("delete", Qt.Key_Delete);
      ("escape", Qt.Key_Escape);
      ("tab", Qt.Key_Tab);
      ("up", Qt.Key_Up);
      ("down", Qt.Key_Down);
      ("left", Qt.Key_Left);
      ("right", Qt.Key_Right);
      ("home", Qt.Key_Home);
      ("end", Qt.Key_End);
      ("pageup", Qt.Key_PageUp);
      ("pagedown", Qt.Key_PageDown);
      ("f1", Qt.Key_F1);
      ("f2", Qt.Key_F2);
      ("f3", Qt.Key_F3);
      ("f4", Qt.Key_F4);
      ("f5", Qt.Key_F5);
      ("f6", Qt.Key_F6);
      ("f7", Qt.Key_F7);
      ("f8", Qt.Key_F8);
      ("f9", Qt.Key_F9);
      ("f10", Qt.Key_F10);
      ("f11", Qt.Key_F11);
      ("f12", Qt.Key_F12) ].

(** [ControllerRemapper.get_key_code] *)
Definition get_key_code (key : string) : option Z :=
  let key_lower := Py.lower key in
  if (String.length key =? 1)%nat then Qt.getattr_Key (Py.upper key)
  else special_keys !! key_lower.

(** A focus widget of the host application *)
Definition widget := nat.

(** Truth value of a key code: [if key_code:] fails on [None] and on 0. *)
Definition truthy_code (key_code : option Z) : option Z :=
  match key_code with
  | Some k => if k =? 0 then None else Some k
  | None => None
  end.

(** [ControllerRemapper.send_key_event]. [focus] is what
    [mw.app.focusWidget()] returns; the result lists the calls of
    [mw.app.sendEvent] in order. *)
Definition send_key_event (focus : option widget) (key_combo : string)
    : list (widget * QKeyEvent) :=
  if negb (Py.truthy key_combo) then [] else
  let '(modifiers, key) := parse_key_combination key_combo in
  let modifier_flags := Qt.NoModifier in
  let modifier_flags :=
    if Py.str_in "ctrl" modifiers
    then Z.lor modifier_flags Qt.ControlModifier else modifier_flags in
  let modifier_flags :=
    if Py.str_in "shift" modifiers
    then Z.lor modifier_flags Qt.ShiftModifier else modifier_flags in
  let modifier_flags :=
    if Py.str_in "alt" modifiers
    then Z.lor modifier_flags Qt.AltModifier else modifier_flags in
  match key with
  | Some key =>
      if Py.truthy key then
        match truthy_code (get_key_code key) with
        | Some key_code =>
            match focus with
            | Some focus_widget =>
                let press_event :=
                  {| ev_type := KeyPress; ev_key := key_code;
                     ev_modifiers := modifier_flags; ev_text := "" |} in
                let release_event :=
                  {| ev_type := KeyRelease; ev_key := key_code;
                     ev_modifiers := modifier_flags; ev_text := "" |} in
                [ (focus_widget, press_event); (focus_widget, release_event) ]
            | None => []
            end
        | None => []
        end
      else []
  | None => []
  end.

(** ** The program's state

    Dictionaries are objects: a variable holds a reference, and two
    references to one dictionary see each other's updates. The heap maps
    references to the dictionaries of strings the program owns (the
    module-level [DEFAULT_MAPPINGS] and the mapping documents). *)

Definition loc := nat.

(** The configuration file at [CONFIG_FILE] *)
Record file_node := {
  readable : bool;
  writable : bool;
  text : string
}.

Record world := {
  heap : gmap loc (gmap string string);
  config_file : option file_node;
  can_create : bool
}.

(** The reference held by the module-level name [DEFAULT_MAPPINGS] *)
Definition DEFAULT_MAPPINGS_loc : loc := 0%nat.

Definition initial_world (f : option file_node) (c : bool) : world :=
  {| heap := {[ DEFAULT_MAPPINGS_loc := DEFAULT_MAPPINGS ]};
     config_file := f; can_create := c |}.

Definition set_heap (w : world) (h : gmap loc (gmap string string)) : world :=
  {| heap := h; config_file := config_file w; can_create := can_create w |}.

Definition set_config_file (w : world) (f : option file_node) : world :=
  {| heap := heap w; config_file := f; can_create := can_create w |}.

(** A new dictionary object with the given items *)
Definition alloc (w : world) (d : gmap string string) : loc * world :=
  let l := fresh (dom (heap w)) in
  (l, set_heap w (<[l := d]> (heap w))).

(** [d.copy()] *)
Definition dict_copy (w : world) (l : loc) : loc * world :=
  alloc w (default ∅ (heap w !! l)).

(** The fields of [ControllerRemapper] that the methods below read or
    write ([thread] and the unused [event_queue] are left out). *)
Record ControllerRemapper := {
  mappings : loc;
  running : bool;
  js_device : option string;
  last_state : gmap string bool
}.

Definition set_running (self : ControllerRemapper) (b : bool) :=
  {| mappings := mappings self; running := b;
     js_device := js_device self; last_state := last_state self |}.

Definition set_js_device (self : ControllerRemapper) (d : option string) :=
  {| mappings := mappings self; running := running self;
     js_device := d; last_state := last_state self |}.

Definition set_last_state (self : ControllerRemapper) (st : gmap string bool) :=
  {| mappings := mappings self; running := running self;
     js_device := js_device self; last_state := st |}.

(** How a call ends: it returns, or an exception leaves it. *)
Inductive outcome := Returned | Raised (exc : string).

(** ** Joystick records *)

Record js_event := {
  timestamp : Z;
  value : Z;
  event_type : Z;
  number : Z
}.

(** The byte order of the machine, which [@] in the format selects *)
Inductive byteorder := LittleEndian | BigEndian.

Definition byte_val (b : byte) : Z := Z.of_N (Byte.to_N b).

(** An unsigned integer from its bytes, first byte at the lowest address *)
Definition unsigned_of (bo : byteorder) (bs : list byte) : Z :=
  let le := match bo with LittleEndian => bs | BigEndian => rev bs end in
  fold_right (fun b acc => Z.lor (byte_val b) (Z.shiftl acc 8)) 0 le.

Definition signed16 (raw : Z) : Z :=
  if raw <? 32768 then raw else raw - 65536.

(** [struct.unpack("@IhBB", data)]; [None] stands for [struct.error],
    raised when [data] does not have [EVENT_SIZE] bytes. *)
Definition unpack (bo : byteorder) (data : list byte) : option js_event :=
  match data with
  | [b0; b1; b2; b3; b4; b5; b6; b7] =>
      Some {| timestamp := unsigned_of bo [b0; b1; b2; b3];
              value := signed16 (unsigned_of bo [b4; b5]);
              event_type := byte_val b6;
              number := byte_val b7 |}
  | _ => None
  end.

(** ** Edge detection *)

(** One call of [send_key_event], with the identifier whose mapping was
    looked up and the combination passed to the call. *)
Definition dispatch := (string * string)%type.

(** [self.mappings.get(name)] *)
Definition mappings_get (w : world) (self : ControllerRemapper)
    (name : string) : option string :=
  heap w !! mappings self ≫= fun d => d !! name.

(** [self.last_state.get(key, False)] *)
Definition state_get (st : gmap string bool) (key : string) : bool :=
  default false (st !! key).

(** [key_combo = self.mappings.get(name)] followed by
    [if key_combo: self.send_key_event(key_combo)] *)
Definition dispatch_mapped (w : world) (self : ControllerRemapper)
    (name : string) : list dispatch :=
  match mappings_get w self name with
  | Some key_combo => if Py.truthy key_combo then [(name, key_combo)] else []
  | None => []
  end.

(** [float(v)] for an integer in the range of the record's [value] *)
Definition float_of_int (v : Z) : float :=
  if v <? 0 then PrimFloat.opp (PrimFloat.of_uint63 (Uint63.of_Z (- v)))
  else PrimFloat.of_uint63 (Uint63.of_Z v).

(** The body shared by the four direction branches: the direction's flag
    is read, a rising edge dispatches, and the flag is set. *)
Definition axis_pressed (w : world) (self : ControllerRemapper)
    (key name : string) : ControllerRemapper * list dispatch :=
  let last := state_get (last_state self) key in
  let sent := if negb last then dispatch_mapped w self name else [] in
  (set_last_state self (<[key := true]> (last_state self)), sent).

(** The two [pop] calls of a dead-zone branch *)
Definition axis_released (self : ControllerRemapper) (key1 key2 : string)
    : ControllerRemapper * list dispatch :=
  (set_last_state self (delete key2 (delete key1 (last_state self))), []).

(** [axis_value = value / 32767.0] and its two comparisons *)
Definition axis_value (v : Z) : float :=
  PrimFloat.div (float_of_int v) 32767.0%float.

Definition axis_negative (v : Z) : bool :=
  PrimFloat.ltb (axis_value v) (-0.5)%float.

Definition axis_positive (v : Z) : bool :=
  PrimFloat.ltb 0.5%float (axis_value v).

(** The branch of [if event_type & JS_EVENT_BUTTON] *)
Definition button_handling (w : world) (self : ControllerRemapper)
    (e : js_event) : ControllerRemapper * list dispatch :=
  let button_num := number e in
  let button_state := negb (value e =? 0) in
  let button_name := CONTROLLER_BUTTONS !! button_num in
  let key := "button_" +:+ Py.str_int button_num in
  let sent :=
    match button_name with
    | Some name =>
        if Py.truthy name && button_state then
          let last := state_get (last_state self) key in
          if negb last then dispatch_mapped w self name else []
        else []
    | None => []
    end in
  (set_last_state self (<[key := button_state]> (last_state self)), sent).

(** The branch of [elif event_type & JS_EVENT_AXIS] *)
Definition axis_handling (w : world) (self : ControllerRemapper)
    (e : js_event) : ControllerRemapper * list dispatch :=
  let axis_num := number e in
  if axis_num =? 0 then
    if axis_negative (value e) then
      axis_pressed w self "axis_0_LEFT" "LEFT"
    else if axis_positive (value e) then
      axis_pressed w self "axis_0_RIGHT" "RIGHT"
    else
      axis_released self "axis_0_LEFT" "axis_0_RIGHT"
  else if axis_num =? 1 then
    if axis_negative (value e) then
      axis_pressed w self "axis_1_UP" "UP"
    else if axis_positive (value e) then
      axis_pressed w self "axis_1_DOWN" "DOWN"
    else
      axis_released self "axis_1_UP" "axis_1_DOWN"
  else (self, []).

(** The body of the read loop of [process_controller_input] after
    [struct.unpack]. *)
Definition process_event (w : world) (self : ControllerRemapper)
    (e : js_event) : ControllerRemapper * list dispatch :=
  if negb (Z.land (event_type e) JS_EVENT_BUTTON =? 0) then
    button_handling w self e
  else if negb (Z.land (event_type e) JS_EVENT_AXIS =? 0) then
    axis_handling w self e
  else (self, []).

(** What one call of [self.js_device.read(EVENT_SIZE)] gives: [None] or no
    bytes when nothing is available, some bytes, or an [OSError]. *)
Inductive read_result :=
| ReadNone
| ReadBytes (data : list byte)
| ReadOSError.

(** The [while True] loop of [process_controller_input]. [reads] holds the
    results of the successive [read] calls; past its end the device has
    nothing more and [read] gives [None]. The result carries the reads
    that were not consumed. *)
Fixpoint read_loop (bo : byteorder) (w : world) (self : ControllerRemapper)
    (reads : list read_result)
    : ControllerRemapper * list dispatch * list read_result * outcome :=
  match reads with
  | [] => (self, [], [], Returned)
  | ReadNone :: rest => (self, [], rest, Returned)
  | ReadOSError :: rest => (self, [], rest, Returned)
  | ReadBytes data :: rest =>
      if (length data =? 0)%nat then (self, [], rest, Returned)
      else if (length data <? EVENT_SIZE)%nat then (self, [], rest, Returned)
      else
        match unpack bo data with
        | None => (self, [], rest, Raised "struct.error")
        | Some e =>
            let '(self1, sent1) := process_event w self e in
            let '(self2, sent2, rest2, out) := read_loop bo w self1 rest in
            (self2, sent1 ++ sent2, rest2, out)
        end
  end.

(** [ControllerRemapper.process_controller_input] *)
Definition process_controller_input (bo : byteorder) (w : world)
    (self : ControllerRemapper) (reads : list read_result)
    : ControllerRemapper * list dispatch * list read_result * outcome :=
  match js_device self with
  | None => (self, [], reads, Returned)
  | Some _ => read_loop bo w self reads
  end.

(** ** The input loop *)

(** What [detect_controller] finds on the machine: which device nodes
    exist, whether the probe of [is_8bitdo_controller] can open a node,
    and whether the final [open] and [fcntl] calls succeed. *)
Record js_env := {
  js_exists : nat -> bool;
  js_probe_ok : string -> bool;
  js_open_ok : string -> bool
}.

Definition js_path (i : nat) : string := "/dev/input/js" +:+ pretty i.

(** [find_joystick_device] *)
Definition find_joystick_device (env : js_env) : option string :=
  js_path <$> find (js_exists env) (seq 0 16).

(** [is_8bitdo_controller]: the name is only printed; the result is
    whether the node could be opened. *)
Definition is_8bitdo_controller (env : js_env) (js_path : string) : bool :=
  js_probe_ok env js_path.

(** [ControllerRemapper.detect_controller] *)
Definition detect_controller (env : js_env) (self : ControllerRemapper)
    : ControllerRemapper * bool :=
  match find_joystick_device env with
  | None => (self, false)
  | Some js_path =>
      if negb (is_8bitdo_controller env js_path) then (self, false)
      else if js_open_ok env js_path
      then (set_js_device self (Some js_path), true)
      else (self, false)
  end.

(** One iteration of the [while self.running] loop as the worker thread
    sees it: the results of the reads the device will answer during the
    call, and whether [stop] clears [running] during the sleep after it. *)
Record tick := {
  tick_reads : list read_result;
  stop_after : bool
}.

(** The [while self.running] loop of [run_loop]. [pending] holds the reads
    the previous iterations left unconsumed. When the schedule ends the
    model stops observing the loop. *)
Fixpoint polling (bo : byteorder) (w : world) (self : ControllerRemapper)
    (pending : list read_result) (sched : list tick)
    : ControllerRemapper * list dispatch * outcome :=
  match sched with
  | [] => (self, [], Returned)
  | t :: rest =>
      if negb (running self) then (self, [], Returned)
      else
        let '(self1, sent1, unread, out) :=
          process_controller_input bo w self (pending ++ tick_reads t) in
        match out with
        | Raised exc => (self1, sent1, Raised exc)
        | Returned =>
            let self1 :=
              if stop_after t then set_running self1 false else self1 in
            let '(self2, sent2, out2) := polling bo w self1 unread rest in
            (self2, sent1 ++ sent2, out2)
        end
  end.

(** [ControllerRemapper.run_loop] *)
Definition run_loop (bo : byteorder) (w : world) (env : js_env)
    (self : ControllerRemapper) (sched : list tick)
    : ControllerRemapper * list dispatch * outcome :=
  let '(self, detected) := detect_controller env self in
  let '(self, sent, out) :=
    if detected then polling bo w self [] sched else (self, [], Returned) in
  match out with
  | Raised exc => (self, sent, Raised exc)
  | Returned =>
      match js_device self with
      | Some _ => (set_js_device self None, sent, Returned)
      | None => (self, sent, Returned)
      end
  end.

(** [ControllerRemapper.start]: the second component tells whether a
    worker thread running [run_loop] was created. *)
Definition start (self : ControllerRemapper) : ControllerRemapper * bool :=
  if running self then (self, false)
  else (set_running self true, true).

(** [ControllerRemapper.stop] *)
Definition stop (self : ControllerRemapper) : ControllerRemapper :=
  set_running self false.

(** ** Configuration *)

(** The [json] module of the Python library, which is not part of the
    repository, on documents that are flat objects of strings:
    [json_load text] is the dictionary [json.load] builds from a file
    holding [text], or [None] when it raises; [json_dump d] is the text
    [json.dump(d, f, indent=2)] writes. The order in which the keys are
    written is not part of the model: none of the modelled operations
    depends on it. *)
Class JsonCodec := {
  json_load : string -> option (gmap string string);
  json_dump : gmap string string -> string
}.

(** [self.remapper.mappings[button] = key_combo] *)
Definition dict_setitem (w : world) (l : loc) (k v : string) : world :=
  set_heap w (alter (fun d => <[k := v]> d) l (heap w)).

(** [del self.remapper.mappings[button]] *)
Definition dict_delitem (w : world) (l : loc) (k : string) : world :=
  set_heap w (alter (fun d => delete k d) l (heap w)).

Section Config.
Context `{JsonCodec}.

(** [ControllerRemapper.load_config]. The bare [except] catches every
    exception of [open] and [json.load], so the call always returns. *)
Definition load_config (w : world) : loc * world :=
  match config_file w with
  | Some f =>
      if readable f then
        match json_load (text f) with
        | Some d => alloc w d
        | None => dict_copy w DEFAULT_MAPPINGS_loc
        end
      else dict_copy w DEFAULT_MAPPINGS_loc
  | None => dict_copy w DEFAULT_MAPPINGS_loc
  end.

(** [ControllerRemapper.save_config]: [open(CONFIG_FILE, "w")] creates
    the file or truncates it, and fails when that is not permitted. *)
Definition save_config (w : world) (self : ControllerRemapper)
    : world * outcome :=
  let doc := json_dump (default ∅ (heap w !! mappings self)) in
  match config_file w with
  | Some f =>
      if writable f then
        (set_config_file w
           (Some {| readable := readable f; writable := true; text := doc |}),
         Returned)
      else (w, Raised "PermissionError")
  | None =>
      if can_create w then
        (set_config_file w
           (Some {| readable := true; writable := true; text := doc |}),
         Returned)
      else (w, Raised "PermissionError")
  end.

(** [ControllerRemapper.__init__] *)
Definition init (w : world) : ControllerRemapper * world :=
  let '(l, w) := load_config w in
  ({| mappings := l; running := false;
      js_device := None; last_state := ∅ |}, w).

(** [ConfigDialog.add_mapping] and [ConfigDialog.update_mapping], which
    have the same body; [button] and [input] are the texts of the two
    form fields. *)
Definition add_mapping (w : world) (self : ControllerRemapper)
    (button input : string) : world * outcome :=
  let key_combo := Py.strip input in
  if Py.truthy button && Py.truthy key_combo then
    save_config (dict_setitem w (mappings self) button key_combo) self
  else (w, Returned).

(** [ConfigDialog.remove_mapping] *)
Definition remove_mapping (w : world) (self : ControllerRemapper)
    (button : string) : world * outcome :=
  match heap w !! mappings self ≫= fun d => d !! button with
  | Some _ => save_config (dict_delitem w (mappings self) button) self
  | None => (w, Returned)
  end.

End Config.

(** ** Notions of the specification *)

(** The tokens of a combination: the parts between [+] signs, trimmed and
    lowercased. *)
Definition spec_tokens (combo : string) : list string :=
  map (fun part => Py.lower (Py.strip part)) (Py.split "+" combo).

(** The modifier a token denotes, if it is a modifier token. *)
Definition spec_modifier (token : string) : option string :=
  if decide (token = "ctrl" \/ token = "control") then Some "ctrl"
  else if decide (token = "shift") then Some "shift"
  else if decide (token = "alt") then Some "alt"
  else None.

(** The modifier tokens of a combination in order, one entry per token. *)
Definition spec_modifier_list (combo : string) : list string :=
  omap spec_modifier (spec_tokens combo).

(** The modifiers of a combination accumulated as a set. *)
Definition spec_modifier_set (combo : string) : gset string :=
  list_to_set (spec_modifier_list combo).

(** The primary key: the last token that is not a modifier token. *)
Definition spec_primary_key (combo : string) : option string :=
  last (filter (fun token => spec_modifier token = None) (spec_tokens combo)).

(** The names of the table of special keys *)
Definition special_key_names : list string :=
  [ "space"; "return"; "enter"; "backspace"; "delete"; "escape"; "tab";
    "up"; "down"; "left"; "right"; "home"; "end"; "pageup"; "pagedown";
    "f1"; "f2"; "f3"; "f4"; "f5"; "f6"; "f7"; "f8"; "f9"; "f10"; "f11";
    "f12" ].

(** A run of decoded records through the loop body: the final object and
    the dispatches of all records in order. *)
Fixpoint run_events (w : world) (self : ControllerRemapper)
    (es : list js_event) : ControllerRemapper * list dispatch :=
  match es with
  | [] => (self, [])
  | e :: rest =>
      let '(self1, sent1) := process_event w self e in
      let '(self2, sent2) := run_events w self1 rest in
      (self2, sent1 ++ sent2)
  end.


(** A record that the loop handles as a record of button [n] *)
Definition is_button_of (n : Z) (e : js_event) : bool :=
  negb (Z.land (event_type e) JS_EVENT_BUTTON =? 0) && (number e =? n).

(** A record that the loop handles as a record of an axis: the axis bit
    is set and the button bit is not. *)
Definition is_axis_record (e : js_event) : bool :=
  (Z.land (event_type e) JS_EVENT_BUTTON =? 0)
  && negb (Z.land (event_type e) JS_EVENT_AXIS =? 0).

(** The state key of a button *)
Definition button_key (n : Z) : string := "button_" +:+ Py.str_int n.

(** The range of the signed 16-bit [value] of a record *)
Definition int16 (v : Z) : Prop := -32768 <= v <= 32767.

(** The normalised value of an axis as an exact fraction *)
Definition normalized (v : Z) : Q := (v # 32767)%Q.

(** The two directions of an axis: state key and identifier of the
    negative direction, then of the positive direction. *)
Definition axis_directions (axis : Z) : (string * string) * (string * string) :=
  if axis =? 0 then (("axis_0_LEFT", "LEFT"), ("axis_0_RIGHT", "RIGHT"))
  else (("axis_1_UP", "UP"), ("axis_1_DOWN", "DOWN")).


Definition with_event_type (e : js_event) (t : Z) : js_event :=
  {| timestamp := timestamp e; value := value e;
     event_type := t; number := number e |}.

(** An exhaustive check of a predicate on [fuel] consecutive integers *)
Fixpoint check_from (check : Z -> bool) (fuel : nat) (v : Z) : bool :=
  match fuel with
  | O => true
  | S fuel => check v && check_from check fuel (v + 1)
  end.

(** The comparisons of the floating-point quotient agree with those of
    the exact fraction at [v]. *)
Definition threshold_check (v : Z) : bool :=
  Bool.eqb (axis_negative v) (v <=? -16384)
  && Bool.eqb (axis_positive v) (16384 <=? v).

(** ** Records for the examples *)

Definition byte_of (z : Z) : byte :=
  match Byte.of_N (Z.to_N (z mod 256)) with
  | Some b => b
  | None => "000"%byte
  end.

(** The bytes of an unsigned integer of [width] bytes, lowest byte first *)
Fixpoint le_bytes (width : nat) (z : Z) : list byte :=
  match width with
  | O => []
  | S width => byte_of z :: le_bytes width (Z.shiftr z 8)
  end.

(** [struct.pack("@IhBB", timestamp, value, type, number)] *)
Definition pack (bo : byteorder) (e : js_event) : list byte :=
  let field width z :=
    match bo with
    | LittleEndian => le_bytes width z
    | BigEndian => rev (le_bytes width z)
    end in
  field 4%nat (timestamp e) ++ field 2%nat (value e mod 65536)
  ++ [byte_of (event_type e); byte_of (number e)].

Definition js_record (v t n : Z) : js_event :=
  {| timestamp := 0; value := v; event_type := t; number := n |}.

(** ** The life cycle and the configuration in the specification *)

(** The flags with which the first call of [process_controller_input] of
    a run of [run_loop] starts, when the controller is detected. *)
Definition polling_entry_state (env : js_env) (self : ControllerRemapper)
    : option (gmap string bool) :=
  let '(self1, detected) := detect_controller env self in
  if detected then Some (last_state self1) else None.

(** The module-level dictionary still holds the built-in defaults. *)
Definition default_intact (w : world) : Prop :=
  heap w !! DEFAULT_MAPPINGS_loc = Some DEFAULT_MAPPINGS.

(** The configuration file is missing, cannot be read, or does not parse. *)
Definition load_fails `{JsonCodec} (w : world) : Prop :=
  match config_file w with
  | None => True
  | Some f => readable f = false \/ json_load (text f) = None
  end.

(** The configuration file can be written and read back: it is absent and
    can be created, or it exists with both permissions. *)
Definition file_usable (w : world) : Prop :=
  match config_file w with
  | None => can_create w = true
  | Some f => writable f = true /\ readable f = true
  end.

(** ** The text of the configuration file

    Modelled from the spec: the configuration file is a flat JSON
    document of strings, pretty-printed. [JsonText.dump] writes a
    dictionary of strings as [json.dump(d, f, indent=2)] does (two spaces
    of indentation, one entry per line, characters outside the printable
    ASCII range escaped), with the keys in the order in which the map
    enumerates them; [JsonText.load] reads an object of strings. Escapes
    [\uXXXX] above 255 are outside the 8-bit characters of the model and
    are refused. *)

Module JsonText.

Definition dquote : ascii := Py.chr 34.
Definition backslash : ascii := Py.chr 92.

Definition hex_digit (n : Z) : ascii :=
  if n <? 10 then Py.chr (48 + n) else Py.chr (87 + n).

Definition hex_value (c : ascii) : option Z :=
  let n := Py.code c in
  if (48 <=? n) && (n <=? 57) then Some (n - 48)
  else if (97 <=? n) && (n <=? 102) then Some (n - 87)
  else if (65 <=? n) && (n <=? 70) then Some (n - 55)
  else None.

Definition escape_char (c : ascii) : string :=
  let n := Py.code c in
  if n =? 34 then String backslash (String dquote "")
  else if n =? 92 then String backslash (String backslash "")
  else if n =? 10 then String backslash "n"
  else if n =? 13 then String backslash "r"
  else if n =? 9 then String backslash "t"
  else if n =? 8 then String backslash "b"
  else if n =? 12 then String backslash "f"
  else if (n <? 32) || (126 <? n) then
    String backslash
      ("u00" +:+ String (hex_digit (n / 16)) (String (hex_digit (n mod 16)) ""))
  else String c "".

Fixpoint escape (s : string) : string :=
  match s with
  | EmptyString => EmptyString
  | String c r => escape_char c +:+ escape r
  end.

Definition encode_string (s : string) : string :=
  String dquote (escape s +:+ String dquote "").

Definition newline : string := String (Py.chr 10) "".

Fixpoint dump_items (items : list (string * string)) : string :=
  match items with
  | [] => ""
  | [(k, v)] => "  " +:+ encode_string k +:+ ": " +:+ encode_string v
  | (k, v) :: rest =>
      "  " +:+ encode_string k +:+ ": " +:+ encode_string v +:+ ","
      +:+ newline +:+ dump_items rest
  end.

Definition dump (d : gmap string string) : string :=
  match map_to_list d with
  | [] => "{}"
  | items => "{" +:+ newline +:+ dump_items items +:+ newline +:+ "}"
  end.

Inductive state :=
| Start
| KeyOrEnd
| Key
| InString (is_key : bool) (k acc : string)
| Escape (is_key : bool) (k acc : string)
| Hex (is_key : bool) (k acc : string) (digits : nat) (v : Z)
| Colon (k : string)
| Value (k : string)
| AfterValue
| End.

Definition is_ws (c : ascii) : bool :=
  let n := Py.code c in (n =? 32) || (n =? 9) || (n =? 10) || (n =? 13).

Definition snoc (acc : string) (c : ascii) : string := acc +:+ String c "".

Definition unescape (c : ascii) : option ascii :=
  let n := Py.code c in
  if n =? 34 then Some dquote
  else if n =? 92 then Some backslash
  else if n =? 47 then Some (Py.chr 47)
  else if n =? 98 then Some (Py.chr 8)
  else if n =? 102 then Some (Py.chr 12)
  else if n =? 110 then Some (Py.chr 10)
  else if n =? 114 then Some (Py.chr 13)
  else if n =? 116 then Some (Py.chr 9)
  else None.

Fixpoint parse (st : state) (d : gmap string string) (s : string)
    : option (gmap string string) :=
  match s with
  | EmptyString => match st with End => Some d | _ => None end
  | String c r =>
      let n := Py.code c in
      match st with
      | Start =>
          if is_ws c then parse Start d r
          else if n =? 123 then parse KeyOrEnd d r else None
      | KeyOrEnd =>
          if is_ws c then parse KeyOrEnd d r
          else if n =? 34 then parse (InString true "" "") d r
          else if n =? 125 then parse End d r else None
      | Key =>
          if is_ws c then parse Key d r
          else if n =? 34 then parse (InString true "" "") d r else None
      | InString is_key k acc =>
          if n =? 34 then
            if is_key then parse (Colon acc) d r
            else parse AfterValue (<[k := acc]> d) r
          else if n =? 92 then parse (Escape is_key k acc) d r
          else if n <? 32 then None
          else parse (InString is_key k (snoc acc c)) d r
      | Escape is_key k acc =>
          if n =? 117 then parse (Hex is_key k acc 4 0) d r
          else match unescape c with
               | Some c' => parse (InString is_key k (snoc acc c')) d r
               | None => None
               end
      | Hex is_key k acc digits v =>
          match hex_value c with
          | None => None
          | Some h =>
              let v := v * 16 + h in
              match digits with
              | 1%nat =>
                  if v <? 256
                  then parse (InString is_key k (snoc acc (Py.chr v))) d r
                  else None
              | _ => parse (Hex is_key k acc (pred digits) v) d r
              end
          end
      | Colon k =>
          if is_ws c then parse (Colon k) d r
          else if n =? 58 then parse (Value k) d r else None
      | Value k =>
          if is_ws c then parse (Value k) d r
          else if n =? 34 then parse (InString false k "") d r else None
      | AfterValue =>
          if is_ws c then parse AfterValue d r
          else if n =? 44 then parse Key d r
          else if n =? 125 then parse End d r else None
      | End => if is_ws c then parse End d r else None
      end
  end.

Definition load (text : string) : option (gmap string string) :=
  parse Start ∅ text.

Definition codec : JsonCodec := {| json_load := load; json_dump := dump |}.

End JsonText.

(** ** Objects for the examples *)

(** A machine with one joystick at [/dev/input/js0] that opens. *)
Definition example_env : js_env :=
  {| js_exists := fun i => (i =? 0)%nat;
     js_probe_ok := fun _ => true;
     js_open_ok := fun _ => true |}.

(** The remapper and the world as [__init__] leaves them when there is no
    configuration file: the remapper holds its own copy of the defaults. *)
Definition new_remapper : ControllerRemapper :=
  fst (@init JsonText.codec (initial_world None true)).

Definition example_world : world :=
  snd (@init JsonText.codec (initial_world None true)).

(** The same remapper while it polls the joystick. *)
Definition example_remapper : ControllerRemapper :=
  fst (detect_controller example_env (fst (start new_remapper))).

(** One iteration that reads a press of button [A], after which [stop]
    is called. *)
Definition press_A_then_stop : tick :=
  {| tick_reads := [ReadBytes (pack LittleEndian (js_record 1 0x01 0))];
     stop_after := true |}.

(** ** The rest of the program *)

(** The module-level name [remapper], [None] until the first call of
    [start_remapper]. *)
Definition remapper_global := option ControllerRemapper.

(** [start_remapper]: the remapper is created on the first call only; the
    result carries whether a worker thread was created and the text of
    the tooltip. *)
Definition start_remapper `{JsonCodec} (w : world) (remapper : remapper_global)
    : remapper_global * world * bool * string :=
  let '(r, w) :=
    match remapper with
    | None => init w
    | Some r => (r, w)
    end in
  let '(r, spawned) := start r in
  (* [start] returns [True] on both of its paths *)
  let started := true in
  (Some r, w, spawned,
   if started then "Controller remapper started"
   else "Failed to start controller remapper").

(** [stop_remapper]: the tooltip is shown only when a remapper exists. *)
Definition stop_remapper (remapper : remapper_global)
    : remapper_global * option string :=
  match remapper with
  | Some r => (Some (stop r), Some "Controller remapper stopped")
  | None => (None, None)
  end.

(** [list(CONTROLLER_BUTTONS.values())]: the values in the order of the
    dictionary literal. *)
Definition CONTROLLER_BUTTONS_values : list string :=
  [ "A"; "B"; "X"; "Y"; "LEFT_SHOULDER"; "RIGHT_SHOULDER"; "SELECT"; "START";
    "LEFT_STICK"; "RIGHT_STICK"; "LEFT_TRIGGER"; "RIGHT_TRIGGER" ].

(** The entries of the button selector of [ConfigDialog.setup_ui], added
    by its two calls of [addItems]. *)
Definition dialog_buttons : list string :=
  CONTROLLER_BUTTONS_values ++ [ "UP"; "DOWN"; "LEFT"; "RIGHT" ].

(** An action of the user in the settings dialog *)
Inductive dialog_action :=
| AddMapping (button input : string)
| UpdateMapping (button input : string)
| RemoveMapping (button : string).

(** The actions of a dialog session in order; an exception of a slot
    leaves the dialog open, so the next action still runs. *)
Fixpoint dialog_session `{JsonCodec} (w : world) (self : ControllerRemapper)
    (actions : list dialog_action) : world :=
  match actions with
  | [] => w
  | AddMapping button input :: rest =>
      dialog_session (fst (add_mapping w self button input)) self rest
  | UpdateMapping button input :: rest =>
      dialog_session (fst (add_mapping w self button input)) self rest
  | RemoveMapping button :: rest =>
      dialog_session (fst (remove_mapping w self button)) self rest
  end.

(** Whether a button record reports the button as pressed *)
Definition pressed (e : js_event) : bool := negb (value e =? 0).




(** The modifier flags of a combination, from the set of its modifiers *)
Definition spec_modifier_flags (combo : string) : Z :=
  (if bool_decide ("ctrl" ∈ spec_modifier_set combo)
   then Qt.ControlModifier else 0)
  + (if bool_decide ("shift" ∈ spec_modifier_set combo)
     then Qt.ShiftModifier else 0)
  + (if bool_decide ("alt" ∈ spec_modifier_set combo)
     then Qt.AltModifier else 0).

(** A text of white space only, the empty text included *)
Fixpoint all_space (s : string) : bool :=
  match s with
  | EmptyString => true
  | String c r => Py.isspace c && all_space r
  end.

(** ** The Qt binding

    The classes [Qt] and [QKeyEvent] come from PyQt6, which is not part
    of the repository, and the program reads their attributes by name:
    [Qt.Key_Space] and the other entries of the table of [get_key_code],
    [getattr(Qt, "Key_" + c, None)], [QKeyEvent.KeyPress] and
    [QKeyEvent.KeyRelease]. The definitions of this part take the two
    classes as a parameter: which attribute names they have, and the
    value of each key. Reading an attribute that a class does not have
    raises [AttributeError]; [getattr] with a default gives the default.
    Constructing an event and handing it to [sendEvent] are taken to
    succeed once the names have been read. *)

Record qt_binding := {
  Qt_attr : string -> option Z;
  QKeyEvent_attr : string -> bool
}.

(** What a call gives: a value, or an exception *)
Inductive result (A : Type) : Type :=
| Value (a : A)
| Throws (exc : string).

Arguments Value {A} a.
Arguments Throws {A} exc.

(** The dictionary literal of [get_key_code] as it is written: each name
    with the attribute of [Qt] that the literal reads for it, in the
    order of the source. *)
Definition special_key_attrs : list (string * string) :=
  [ ("space", "Key_Space");
    ("return", "Key_Return");
    ("enter", "Key_Enter");
    ("backspace", "Key_Backspace");
    ("delete", "Key_Delete");
    ("escape", "Key_Escape");
    ("tab", "Key_Tab");
    ("up", "Key_Up");
    ("down", "Key_Down");
    ("left", "Key_Left");
    ("right", "Key_Right");
    ("home", "Key_Home");
    ("end", "Key_End");
    ("pageup", "Key_PageUp");
    ("pagedown", "Key_PageDown");
    ("f1", "Key_F1");
    ("f2", "Key_F2");
    ("f3", "Key_F3");
    ("f4", "Key_F4");
    ("f5", "Key_F5");
    ("f6", "Key_F6");
    ("f7", "Key_F7");
    ("f8", "Key_F8");
    ("f9", "Key_F9");
    ("f10", "Key_F10");
    ("f11", "Key_F11");
    ("f12", "Key_F12") ].

(** Evaluating the literal: the attributes are read in order, and
    [None] stands for the [AttributeError] of the first that is missing. *)
Fixpoint eval_table (attr : string -> option Z)
    (entries : list (string * string)) : option (list (string * Z)) :=
  match entries with
  | [] => Some []
  | (name, a) :: rest =>
      match attr a with
      | None => None
      | Some code =>
          match eval_table attr rest with
          | None => None
          | Some table => Some ((name, code) :: table)
          end
      end
  end.

Module Bound.

(** [ControllerRemapper.get_key_code] under a binding: the table is
    built, with all its attribute reads, before the key is looked up. *)
Definition get_key_code (b : qt_binding) (key : string)
    : result (option Z) :=
  let key_lower := Py.lower key in
  if (String.length key =? 1)%nat then
    Value (Qt_attr b ("Key_" +:+ Py.upper key))
  else
    match eval_table (Qt_attr b) special_key_attrs with
    | None => Throws "AttributeError"
    | Some table =>
        let special_keys : gmap string Z := list_to_map table in
        Value (special_keys !! key_lower)
    end.

(** [ControllerRemapper.send_key_event] under a binding: the calls of
    [mw.app.sendEvent] in order, and how the call ends. *)
Definition send_key_event (b : qt_binding) (focus : option widget)
    (key_combo : string) : list (widget * QKeyEvent) * outcome :=
  if negb (Py.truthy key_combo) then ([], Returned) else
  let '(modifiers, key) := parse_key_combination key_combo in
  let modifier_flags := Qt.NoModifier in
  let modifier_flags :=
    if Py.str_in "ctrl" modifiers
    then Z.lor modifier_flags Qt.ControlModifier else modifier_flags in
  let modifier_flags :=
    if Py.str_in "shift" modifiers
    then Z.lor modifier_flags Qt.ShiftModifier else modifier_flags in
  let modifier_flags :=
    if Py.str_in "alt" modifiers
    then Z.lor modifier_flags Qt.AltModifier else modifier_flags in
  match key with
  | Some key =>
      if Py.truthy key then
        match get_key_code b key with
        | Throws exc => ([], Raised exc)
        | Value key_code =>
            match truthy_code key_code with
            | Some key_code =>
                match focus with
                | Some focus_widget =>
                    if negb (QKeyEvent_attr b "KeyPress")
                    then ([], Raised "AttributeError")
                    else if negb (QKeyEvent_attr b "KeyRelease")
                    then ([], Raised "AttributeError")
                    else
                      let press_event :=
                        {| ev_type := KeyPress; ev_key := key_code;
                           ev_modifiers := modifier_flags; ev_text := "" |} in
                      let release_event :=
                        {| ev_type := KeyRelease; ev_key := key_code;
                           ev_modifiers := modifier_flags; ev_text := "" |} in
                      ([ (focus_widget, press_event);
                         (focus_widget, release_event) ], Returned)
                | None => ([], Returned)
                end
            | None => ([], Returned)
            end
        end
      else ([], Returned)
  | None => ([], Returned)
  end.

End Bound.

(** A binding with scoped enumerators, as PyQt6 is: the keys are read as
    [Qt.Key.Key_Space] and the event types as [QEvent.Type.KeyPress], and
    the classes [Qt] and [QKeyEvent] themselves have no attribute of the
    names the program reads. *)
Definition scoped_binding : qt_binding :=
  {| Qt_attr := fun _ => None; QKeyEvent_attr := fun _ => false |}.

(** Modelled from the spec: the binding in which the names exist, with
    the values of [Module Qt]: the attribute of each entry of the table,
    [Key_] followed by one letter or digit, and the two event types. *)
Definition spec_binding : qt_binding :=
  {| Qt_attr := fun attr =>
       match attr with
       | String "K" (String "e" (String "y" (String "_" suffix))) =>
           match Qt.getattr_Key suffix with
           | Some code => Some code
           | None =>
               (list_to_map
                  ((fun entry : string * string =>
                      (entry.2, default 0 (special_keys !! entry.1)))
                   <$> special_key_attrs) : gmap string Z) !! attr
           end
       | _ => None
       end;
     QKeyEvent_attr := fun attr =>
       String.eqb attr "KeyPress" || String.eqb attr "KeyRelease" |}.

(** The binding has every attribute that the table of [get_key_code]
    reads. *)
Definition has_key_attrs (b : qt_binding) : Prop :=
  Forall (fun entry : string * string => is_Some (Qt_attr b entry.2))
    special_key_attrs.

(** A key token resolves under a binding when it is one character for
    which [Qt] has a key attribute, or one of the special names. *)
Definition resolves_in (b : qt_binding) (key : string) : Prop :=
  (exists c, key = String c EmptyString
             /\ is_Some (Qt_attr b ("Key_" +:+ Py.upper key)))
  \/ key ∈ special_key_names.

(** A text of ASCII characters, on which the string methods of [Module
    Py] are those of Python. *)
Fixpoint is_ascii (s : string) : bool :=
  match s with
  | EmptyString => true
  | String c r => (Py.code c <? 128) && is_ascii r
  end.

(** * Properties *)

(** ** Strings *)

Lemma str_in_elem_of x xs : Py.str_in x xs = true <-> x ∈ xs.
Proof.
  unfold Py.str_in. rewrite existsb_exists. split.
  - intros (y & Hy & Heq). apply String.eqb_eq in Heq. subst.
    by apply list_elem_of_In.
  - intros Hin. exists x. split; [by apply list_elem_of_In|apply String.eqb_refl].
Qed.

Lemma str_in_false x xs : Py.str_in x xs = false <-> x ∉ xs.
Proof.
  rewrite <- str_in_elem_of. destruct (Py.str_in x xs); split; congruence.
Qed.

Lemma truthy_false s : Py.truthy s = false <-> s = "".
Proof. destruct s; simpl; split; congruence. Qed.

(** ** Parsing a combination *)

Lemma str_in_1 t a : Py.str_in t [a] = true <-> t = a.
Proof. rewrite str_in_elem_of. apply list_elem_of_singleton. Qed.

Lemma str_in_2 t a b : Py.str_in t [a; b] = true <-> t = a \/ t = b.
Proof.
  rewrite str_in_elem_of, elem_of_cons, list_elem_of_singleton. done.
Qed.

Lemma parse_parts_step part rest mods key :
  parse_parts (part :: rest) mods key =
  match spec_modifier (Py.lower (Py.strip part)) with
  | Some m => parse_parts rest (mods ++ [m]) key
  | None => parse_parts rest mods (Some (Py.lower (Py.strip part)))
  end.
Proof.
  cbn [parse_parts]. unfold spec_modifier.
  generalize (Py.lower (Py.strip part)); intros t.
  destruct (Py.str_in t ["ctrl"; "control"]) eqn:E1.
  { apply str_in_2 in E1. by rewrite decide_True. }
  rewrite decide_False by (rewrite <- str_in_2; congruence).
  destruct (Py.str_in t ["shift"]) eqn:E2.
  { apply str_in_1 in E2. by rewrite decide_True. }
  rewrite decide_False by (rewrite <- str_in_1; congruence).
  destruct (Py.str_in t ["alt"]) eqn:E3.
  { apply str_in_1 in E3. by rewrite decide_True. }
  rewrite decide_False by (rewrite <- str_in_1; congruence).
  done.
Qed.

Lemma parse_parts_spec parts mods key :
  let tokens := map (fun part => Py.lower (Py.strip part)) parts in
  parse_parts parts mods key =
  (mods ++ omap spec_modifier tokens,
   match last (filter (fun token => spec_modifier token = None) tokens) with
   | Some k => Some k
   | None => key
   end).
Proof.
  revert mods key. induction parts as [|part rest IH]; intros mods key.
  - simpl. by rewrite app_nil_r.
  - rewrite parse_parts_step. cbn zeta in IH |- *.
    rewrite map_cons.
    generalize (Py.lower (Py.strip part)); intros t.
    destruct (spec_modifier t) as [m|] eqn:Em.
    + rewrite IH, <- app_assoc. cbn [omap list_omap]. rewrite Em.
      rewrite filter_cons_False; [done|]. rewrite Em. discriminate.
    + rewrite IH. cbn [omap list_omap]. rewrite Em.
      rewrite filter_cons_True by done.
      destruct (filter _ _) as [|y ys] eqn:Ef; [done|].
      rewrite last_cons_cons.
      destruct (last (y :: ys)) eqn:El; [done|]. by apply last_None in El.
Qed.

Lemma parse_key_combination_spec combo :
  parse_key_combination combo =
  (spec_modifier_list combo, spec_primary_key combo).
Proof.
  unfold parse_key_combination.
  rewrite parse_parts_spec. cbn zeta. simpl.
  unfold spec_modifier_list, spec_primary_key, spec_tokens.
  by destruct (last _).
Qed.

(** Every token of a combination is a lowercased string. *)
Lemma lower_char_idemp c : Py.lower_char (Py.lower_char c) = Py.lower_char c.
Proof. by destruct c as [[] [] [] [] [] [] [] []]. Qed.

Lemma lower_idemp s : Py.lower (Py.lower s) = Py.lower s.
Proof.
  induction s as [|c r IH]; [done|].
  unfold Py.lower in *. cbn [Py.map_chars]. by rewrite lower_char_idemp, IH.
Qed.

Lemma lower_empty s : Py.lower s = "" <-> s = "".
Proof. destruct s; [done|]. split; intros; discriminate. Qed.

Lemma spec_tokens_lower combo token :
  token ∈ spec_tokens combo -> Py.lower token = token.
Proof.
  unfold spec_tokens. rewrite list_elem_of_In, in_map_iff.
  intros (part & <- & _). apply lower_idemp.
Qed.

Lemma spec_primary_key_token combo key :
  spec_primary_key combo = Some key ->
  key ∈ spec_tokens combo /\ spec_modifier key = None.
Proof.
  unfold spec_primary_key. intros Hlast.
  apply last_Some_elem_of in Hlast.
  by apply list_elem_of_filter in Hlast as [? ?].
Qed.

(** ** Resolving a key *)

Lemma special_keys_unnamed key :
  key ∉ special_key_names -> special_keys !! key = None.
Proof. intros Hnot. by apply not_elem_of_list_to_map_1. Qed.




(** ** Sending a key event *)

Lemma truthy_code_Some key_code k :
  truthy_code key_code = Some k -> key_code = Some k.
Proof.
  destruct key_code as [k'|]; [|done]. simpl.
  by destruct (k' =? 0); intros [= ->].
Qed.



Lemma str_in_modifier_set m combo1 combo2 :
  spec_modifier_set combo1 = spec_modifier_set combo2 ->
  Py.str_in m (spec_modifier_list combo1)
  = Py.str_in m (spec_modifier_list combo2).
Proof.
  intros Hset. apply eq_true_iff_eq. rewrite !str_in_elem_of.
  unfold spec_modifier_set in Hset.
  by rewrite <- !(elem_of_list_to_set (C := gset string)), Hset.
Qed.

(** C2, as amended: for every combination, parsing splits on [+], trims and
    lowercases each part, and returns the modifier tokens as a list in the
    order of the tokens, one entry per modifier token ([ctrl] for both
    [ctrl] and [control]; a repeated modifier is a repeated entry), with
    the last token that is not a modifier as the primary key, or no key
    when there is none. Membership in the list, which is all that
    dispatching consults, is membership in the set of modifiers, so that
    two combinations with the same set of modifiers and the same primary
    key send the same events. [Ctrl+Shift+z] gives the modifiers ctrl and
    shift and the key [z]; [Return] gives no modifier and the key
    [return]. *)
Theorem parse_key_combination_tokens :
  (forall combo,
     parse_key_combination combo
     = (spec_modifier_list combo, spec_primary_key combo))
  /\ (forall combo m,
        Py.str_in m (fst (parse_key_combination combo)) = true
        <-> m ∈ spec_modifier_set combo)
  /\ (forall focus combo1 combo2,
        spec_modifier_set combo1 = spec_modifier_set combo2 ->
        spec_primary_key combo1 = spec_primary_key combo2 ->
        combo1 <> "" -> combo2 <> "" ->
        send_key_event focus combo1 = send_key_event focus combo2)
  /\ parse_key_combination "Ctrl+Shift+z" = (["ctrl"; "shift"], Some "z")
  /\ parse_key_combination "Return" = ([], Some "return").
Proof.
  split; [apply parse_key_combination_spec|]. split; [|split; [|done]].
  - intros combo m. rewrite parse_key_combination_spec. cbn [fst].
    rewrite str_in_elem_of. unfold spec_modifier_set.
    by rewrite elem_of_list_to_set.
  - intros focus combo1 combo2 Hset Hkey Hne1 Hne2. unfold send_key_event.
    destruct combo1 as [|c1 r1]; [done|]. destruct combo2 as [|c2 r2]; [done|].
    cbn [Py.truthy negb]. rewrite !parse_key_combination_spec, Hkey.
    by rewrite !(str_in_modifier_set _ _ _ Hset).
Qed.

Lemma parse_key_combination_tokens_witness :
  spec_modifier_set "Ctrl+Control+z" = spec_modifier_set "ctrl + z"
  /\ spec_primary_key "Ctrl+Control+z" = spec_primary_key "ctrl + z"
  /\ send_key_event (Some 5%nat) "Ctrl+Control+z"
     = send_key_event (Some 5%nat) "ctrl + z".
Proof.
  assert (Hset : spec_modifier_set "Ctrl+Control+z"
                 = spec_modifier_set "ctrl + z") by reflexivity.
  assert (Hkey : spec_primary_key "Ctrl+Control+z"
                 = spec_primary_key "ctrl + z") by reflexivity.
  split; [exact Hset|]. split; [exact Hkey|].
  exact (proj1 (proj2 (proj2 parse_key_combination_tokens))
           (Some 5%nat) "Ctrl+Control+z" "ctrl + z" Hset Hkey
           ltac:(discriminate) ltac:(discriminate)).
Defined.

(** C2 as stated fails: the modifiers parsed from a combination that
    names a modifier twice hold it twice, where a set holds it once. *)
Lemma parse_keeps_repeated_modifiers :
  parse_key_combination "Ctrl+Control+z" = (["ctrl"; "ctrl"], Some "z")
  /\ length (fst (parse_key_combination "Ctrl+Control+z")) = 2%nat
  /\ size (spec_modifier_set "Ctrl+Control+z") = 1%nat
  /\ ~ NoDup (fst (parse_key_combination "Ctrl+Control+z")).
Proof.
  split; [done|]. split; [done|]. split; [done|].
  intros Hnd. apply NoDup_cons in Hnd as [Hnot _].
  apply Hnot. by apply list_elem_of_singleton.
Qed.



(** ** The axis thresholds *)

Lemma check_from_sound check fuel lo :
  check_from check fuel lo = true ->
  forall v, lo <= v < lo + Z.of_nat fuel -> check v = true.
Proof.
  revert lo. induction fuel as [|fuel IH]; intros lo Hall v Hv; [lia|].
  cbn [check_from] in Hall. apply andb_true_iff in Hall as [Hlo Hrest].
  destruct (decide (v = lo)) as [->|Hne]; [done|].
  apply (IH (lo + 1)); [done|lia].
Qed.

Lemma threshold_check_all :
  check_from threshold_check (Z.to_nat 65536) (-32768) = true.
Proof. vm_compute. reflexivity. Qed.

Lemma axis_thresholds v :
  int16 v ->
  axis_negative v = (v <=? -16384) /\ axis_positive v = (16384 <=? v).
Proof.
  intros Hv. unfold int16 in Hv.
  pose proof (check_from_sound _ _ _ threshold_check_all v) as Hc.
  rewrite Z2Nat.id in Hc by lia. specialize (Hc ltac:(lia)).
  unfold threshold_check in Hc. apply andb_true_iff in Hc as [H1 H2].
  apply Bool.eqb_prop in H1, H2. done.
Qed.

(** ** The tables of the program *)

Lemma controller_buttons_cases n name :
  CONTROLLER_BUTTONS !! n = Some name ->
  (n, name) ∈ [ (0, "A"); (1, "B"); (2, "X"); (3, "Y");
                (4, "LEFT_SHOULDER"); (5, "RIGHT_SHOULDER");
                (6, "SELECT"); (7, "START");
                (8, "LEFT_STICK"); (9, "RIGHT_STICK");
                (10, "LEFT_TRIGGER"); (11, "RIGHT_TRIGGER") ].
Proof. apply elem_of_list_to_map_2. Qed.

Ltac button_cases H :=
  apply controller_buttons_cases in H;
  repeat (apply elem_of_cons in H as [H|H]; [simplify_eq|]);
  [..|by apply elem_of_nil in H].

Lemma controller_buttons_truthy n name :
  CONTROLLER_BUTTONS !! n = Some name -> Py.truthy name = true.
Proof. intros Hn. button_cases Hn; done. Qed.





(** ** The flags *)





(** The loop body writes no field but [last_state]. *)
Lemma process_event_fields w self e :
  let self' := fst (process_event w self e) in
  mappings self' = mappings self /\ running self' = running self
  /\ js_device self' = js_device self.
Proof.
  unfold process_event, button_handling, axis_handling,
    axis_pressed, axis_released.
  repeat match goal with |- context [if ?b then _ else _] => destruct b end;
    done.
Qed.


Lemma dispatch_mapped_Some w self name combo :
  mappings_get w self name = Some combo -> combo <> "" ->
  dispatch_mapped w self name = [(name, combo)].
Proof.
  intros Hget Hne. unfold dispatch_mapped. rewrite Hget.
  destruct combo; [done|]. done.
Qed.


(** ** Buttons *)

Lemma is_button_of_true n e :
  is_button_of n e = true <->
  Z.land (event_type e) JS_EVENT_BUTTON <> 0 /\ number e = n.
Proof.
  unfold is_button_of. rewrite andb_true_iff, negb_true_iff.
  rewrite Z.eqb_neq, Z.eqb_eq. done.
Qed.

Lemma button_press_step w self e n name combo :
  CONTROLLER_BUTTONS !! n = Some name ->
  mappings_get w self name = Some combo -> combo <> "" ->
  is_button_of n e = true -> value e <> 0 ->
  process_event w self e =
  (set_last_state self (<[button_key n := true]> (last_state self)),
   if state_get (last_state self) (button_key n) then []
   else [(name, combo)]).
Proof.
  intros Hname Hget Hne [Hbit <-]%is_button_of_true Hval.
  unfold process_event. apply Z.eqb_neq in Hbit. rewrite Hbit. cbn [negb].
  unfold button_handling. cbn zeta. rewrite Hname.
  rewrite (controller_buttons_truthy _ _ Hname).
  apply Z.eqb_neq in Hval. rewrite Hval. cbn [negb andb].
  fold (button_key (number e)).
  destruct (state_get _ _); cbn [negb]; [done|].
  by rewrite (dispatch_mapped_Some _ _ _ _ Hget Hne).
Qed.



(** ** Packing and unpacking a record *)

Lemma byte_val_of z : byte_val (byte_of z) = z mod 256.
Proof.
  unfold byte_val, byte_of.
  pose proof (Z.mod_pos_bound z 256 ltac:(lia)) as Hz.
  destruct (Byte.of_N (Z.to_N (z mod 256))) as [b|] eqn:Hb.
  - apply Byte.to_of_N in Hb. rewrite Hb. lia.
  - apply Byte.of_N_None_iff in Hb. lia.
Qed.

Lemma testbit_lor_shiftl lo hi k n :
  0 <= k -> 0 <= n ->
  Z.testbit (Z.lor (lo mod 2 ^ 8) (Z.shiftl (hi mod 2 ^ k) 8)) n =
  if n <? 8 then Z.testbit lo n
  else if n <? 8 + k then Z.testbit hi (n - 8) else false.
Proof.
  intros Hk Hn. rewrite Z.lor_spec, Z.shiftl_spec by lia.
  destruct (n <? 8) eqn:E8.
  - apply Z.ltb_lt in E8.
    rewrite Z.mod_pow2_bits_low by lia.
    rewrite (Z.testbit_neg_r _ (n - 8)) by lia. apply orb_false_r.
  - apply Z.ltb_ge in E8.
    rewrite Z.mod_pow2_bits_high by lia. cbn [orb].
    destruct (n <? 8 + k) eqn:Ek.
    + apply Z.ltb_lt in Ek. by rewrite Z.mod_pow2_bits_low by lia.
    + apply Z.ltb_ge in Ek. by rewrite Z.mod_pow2_bits_high by lia.
Qed.

Lemma unsigned_of_le_bytes width z :
  unsigned_of LittleEndian (le_bytes width z) = z mod 2 ^ (8 * Z.of_nat width).
Proof.
  revert z. induction width as [|width IH]; intros z.
  - cbn. by rewrite Z.mod_1_r.
  - cbn [le_bytes]. unfold unsigned_of in *. cbn [fold_right].
    rewrite IH, byte_val_of.
    apply Z.bits_inj'. intros n Hn.
    change 256 with (2 ^ 8).
    rewrite testbit_lor_shiftl by lia.
    destruct (n <? 8) eqn:E8.
    + apply Z.ltb_lt in E8. by rewrite Z.mod_pow2_bits_low by lia.
    + apply Z.ltb_ge in E8.
      destruct (n <? 8 + 8 * Z.of_nat width) eqn:Ek.
      * apply Z.ltb_lt in Ek. rewrite Z.mod_pow2_bits_low by lia.
        rewrite Z.shiftr_spec by lia. f_equal. lia.
      * apply Z.ltb_ge in Ek. by rewrite Z.mod_pow2_bits_high by lia.
Qed.

Lemma unsigned_of_field bo width z :
  unsigned_of bo
    (match bo with
     | LittleEndian => le_bytes width z
     | BigEndian => rev (le_bytes width z)
     end) = z mod 2 ^ (8 * Z.of_nat width).
Proof.
  destruct bo; [apply unsigned_of_le_bytes|].
  unfold unsigned_of. rewrite rev_involutive. apply unsigned_of_le_bytes.
Qed.

Lemma signed16_mod v : int16 v -> signed16 ((v mod 65536) mod 2 ^ 16) = v.
Proof.
  unfold int16, signed16. intros Hv. change (2 ^ 16) with 65536.
  rewrite Z.mod_mod by lia.
  pose proof (Z.mod_pos_bound v 65536 ltac:(lia)) as Hbound.
  pose proof (Z.div_mod v 65536 ltac:(lia)) as Hdiv.
  destruct (v mod 65536 <? 32768) eqn:E;
    [apply Z.ltb_lt in E|apply Z.ltb_ge in E]; lia.
Qed.

(** A record in the ranges of its four fields is read back from its
    bytes, in either byte order. *)
Lemma unpack_pack bo e :
  0 <= timestamp e < 2 ^ 32 -> int16 (value e) ->
  0 <= event_type e < 256 -> 0 <= number e < 256 ->
  unpack bo (pack bo e) = Some e.
Proof.
  intros Ht Hv Hty Hn. destruct e as [ts v ty n]. cbn [timestamp value event_type number] in *.
  pose proof (unsigned_of_field bo 4 ts) as H4.
  pose proof (unsigned_of_field bo 2 (v mod 65536)) as H2.
  unfold pack. cbn [timestamp value event_type number].
  destruct bo; cbn [le_bytes rev app unpack] in *;
    rewrite H4, H2, !byte_val_of, signed16_mod by done;
    f_equal; f_equal; apply Z.mod_small; lia.
Qed.

(** Every record read from the device has a value in the signed 16-bit
    range and a type and a number in the range of a byte. *)
Lemma byte_val_range b : 0 <= byte_val b < 256.
Proof. unfold byte_val. pose proof (Byte.to_N_bounded b). lia. Qed.

Lemma lor_shiftl_add a b :
  0 <= a < 256 -> Z.lor a (Z.shiftl b 8) = a + 256 * b.
Proof.
  intros Ha.
  assert (Hland : Z.land a (Z.shiftl b 8) = 0).
  { apply Z.bits_inj'. intros n Hn.
    rewrite Z.land_spec, Z.bits_0.
    destruct (decide (n < 8)) as [Hlt|Hge].
    - rewrite Z.shiftl_spec_low by lia. apply andb_false_r.
    - destruct (decide (a = 0)) as [->|Hne].
      + by rewrite Z.bits_0.
      + rewrite (Z.bits_above_log2 a n); [done|lia|].
        assert (Z.log2 a < 8) by (apply Z.log2_lt_pow2; lia). lia. }
  rewrite <- Z.lxor_lor, <- Z.add_nocarry_lxor by done.
  rewrite Z.shiftl_mul_pow2 by lia. lia.
Qed.

Lemma unsigned_of_pair bo a b :
  0 <= unsigned_of bo [a; b] < 65536.
Proof.
  pose proof (byte_val_range a). pose proof (byte_val_range b).
  unfold unsigned_of. destruct bo; cbn [rev app fold_right];
    rewrite Z.shiftl_0_l, Z.lor_0_r, lor_shiftl_add by done; lia.
Qed.

Lemma unpack_ranges bo data e :
  unpack bo data = Some e ->
  int16 (value e) /\ 0 <= event_type e < 256 /\ 0 <= number e < 256.
Proof.
  unfold unpack.
  do 9 (destruct data as [|? data]; try discriminate). intros [= <-].
  cbn [value event_type number].
  split; [|split; apply byte_val_range].
  pose proof (unsigned_of_pair bo b3 b4) as Hraw.
  unfold int16, signed16. destruct (_ <? 32768) eqn:E;
    [apply Z.ltb_lt in E|apply Z.ltb_ge in E]; lia.
Qed.

(** ** The read loop *)

Lemma unpack_length bo data e :
  unpack bo data = Some e -> length data = EVENT_SIZE.
Proof.
  unfold unpack.
  do 9 (destruct data as [|? data]; try discriminate). done.
Qed.

Lemma unpack_total bo data :
  length data = EVENT_SIZE -> is_Some (unpack bo data).
Proof.
  unfold EVENT_SIZE.
  do 9 (destruct data as [|? data]; try discriminate). intros _. by eexists.
Qed.






(** ** Runs of records *)

Lemma run_events_fields w self es :
  mappings (fst (run_events w self es)) = mappings self.
Proof.
  revert self. induction es as [|e es IH]; intros self; [done|].
  cbn [run_events].
  pose proof (proj1 (process_event_fields w self e)) as Hm.
  destruct (process_event w self e) as [self1 sent1].
  specialize (IH self1).
  destruct (run_events w self1 es) as [self2 sent2].
  cbn [fst] in *. congruence.
Qed.






(** ** The type bits *)

Lemma land_lor_init t mask :
  Z.land JS_EVENT_INIT mask = 0 ->
  Z.land (Z.lor t JS_EVENT_INIT) mask = Z.land t mask.
Proof.
  intros Hmask. by rewrite Z.land_lor_distr_l, Hmask, Z.lor_0_r.
Qed.

Lemma land_ldiff_init t mask :
  Z.land (Z.lnot JS_EVENT_INIT) mask = mask ->
  Z.land (Z.ldiff t JS_EVENT_INIT) mask = Z.land t mask.
Proof.
  intros Hmask. by rewrite Z.ldiff_land, <- Z.land_assoc, Hmask.
Qed.

(** C9, as amended: the init bit of a record's type is ignored: a record is
    handled as the same record with the bit set or cleared. The button
    branch is taken whenever the button bit is set; the axis branch is
    taken whenever the axis bit is set and the button bit is not; a record
    with neither bit changes nothing. *)
Theorem init_bit_is_ignored
    (w : world) (self : ControllerRemapper) (e : js_event) :
  process_event w self
    (with_event_type e (Z.lor (event_type e) JS_EVENT_INIT))
    = process_event w self e
  /\ process_event w self
       (with_event_type e (Z.ldiff (event_type e) JS_EVENT_INIT))
     = process_event w self e
  /\ (Z.land (event_type e) JS_EVENT_BUTTON <> 0 ->
      process_event w self e = button_handling w self e)
  /\ (Z.land (event_type e) JS_EVENT_BUTTON = 0 ->
      Z.land (event_type e) JS_EVENT_AXIS <> 0 ->
      process_event w self e = axis_handling w self e)
  /\ (Z.land (event_type e) JS_EVENT_BUTTON = 0 ->
      Z.land (event_type e) JS_EVENT_AXIS = 0 ->
      process_event w self e = (self, [])).
Proof.
  split; [|split; [|split; [|split]]].
  - unfold process_event. cbn [event_type with_event_type].
    by rewrite !land_lor_init.
  - unfold process_event. cbn [event_type with_event_type].
    by rewrite !land_ldiff_init.
  - intros Hb%Z.eqb_neq. unfold process_event. by rewrite Hb.
  - intros Hb%Z.eqb_eq Ha%Z.eqb_neq. unfold process_event. by rewrite Hb, Ha.
  - intros Hb%Z.eqb_eq Ha%Z.eqb_eq. unfold process_event. by rewrite Hb, Ha.
Qed.

Lemma init_bit_is_ignored_witness :
  Z.land 0x82 JS_EVENT_BUTTON = 0
  /\ Z.land 0x82 JS_EVENT_AXIS <> 0
  /\ process_event example_world example_remapper (js_record (-32767) 0x82 0)
     = axis_handling example_world example_remapper (js_record (-32767) 0x82 0)
  /\ Z.land 0x81 JS_EVENT_BUTTON <> 0
  /\ process_event example_world example_remapper (js_record 1 0x81 0)
     = button_handling example_world example_remapper (js_record 1 0x81 0)
  /\ Z.land 0x80 JS_EVENT_AXIS = 0
  /\ process_event example_world example_remapper (js_record 1 0x80 0)
     = (example_remapper, []).
Proof.
  split; [reflexivity|]. split; [discriminate|]. split.
  - exact (proj1 (proj2 (proj2 (proj2 (init_bit_is_ignored example_world
             example_remapper (js_record (-32767) 0x82 0)))))
             eq_refl ltac:(discriminate)).
  - split; [discriminate|]. split.
    + exact (proj1 (proj2 (proj2 (init_bit_is_ignored example_world
               example_remapper (js_record 1 0x81 0))))
               ltac:(discriminate)).
    + split; [reflexivity|].
      exact (proj2 (proj2 (proj2 (proj2 (init_bit_is_ignored example_world
               example_remapper (js_record 1 0x80 0)))))
               eq_refl eq_refl).
Defined.

(** C9 as stated fails: a record whose type has the axis bit set together
    with the button bit (and the init bit) is handled by the button
    branch, not by the axis branch. *)
Lemma axis_bit_under_button_bit :
  Z.land 0x83 JS_EVENT_AXIS = 2
  /\ Z.land 0x83 JS_EVENT_INIT = 0x80
  /\ process_event example_world example_remapper (js_record (-32767) 0x83 0)
     = (set_last_state example_remapper {[ "button_0" := true ]},
        [("A", " ")])
  /\ axis_handling example_world example_remapper (js_record (-32767) 0x83 0)
     = (set_last_state example_remapper {[ "axis_0_LEFT" := true ]},
        [("LEFT", "Left")])
  /\ process_event example_world example_remapper (js_record (-32767) 0x83 0)
     <> axis_handling example_world example_remapper
          (js_record (-32767) 0x83 0).
Proof.
  assert (Hp : process_event example_world example_remapper
                 (js_record (-32767) 0x83 0)
               = (set_last_state example_remapper {[ "button_0" := true ]},
                  [("A", " ")])) by (vm_compute; reflexivity).
  assert (Ha : axis_handling example_world example_remapper
                 (js_record (-32767) 0x83 0)
               = (set_last_state example_remapper {[ "axis_0_LEFT" := true ]},
                  [("LEFT", "Left")])) by (vm_compute; reflexivity).
  split; [reflexivity|]. split; [reflexivity|].
  split; [exact Hp|]. split; [exact Ha|].
  rewrite Hp, Ha. by intros [=].
Qed.

(** ** Axes *)

Lemma normalized_negative v : (normalized v < -(1#2))%Q <-> v <= -16384.
Proof. unfold normalized, Qlt. cbn. lia. Qed.

Lemma normalized_positive v : ((1#2) < normalized v)%Q <-> 16384 <= v.
Proof. unfold normalized, Qlt. cbn. lia. Qed.


(** The comparisons of the program on the floating-point quotient are
    those of the exact fraction. *)
Lemma axis_negative_spec v :
  int16 v -> axis_negative v = true <-> (normalized v < -(1#2))%Q.
Proof.
  intros Hv. rewrite (proj1 (axis_thresholds v Hv)), normalized_negative.
  apply Z.leb_le.
Qed.

Lemma axis_positive_spec v :
  int16 v -> axis_positive v = true <-> ((1#2) < normalized v)%Q.
Proof.
  intros Hv. rewrite (proj2 (axis_thresholds v Hv)), normalized_positive.
  apply Z.leb_le.
Qed.

Lemma is_axis_record_handling w self e :
  is_axis_record e = true ->
  process_event w self e = axis_handling w self e.
Proof.
  unfold is_axis_record. intros [Hb Ha]%andb_true_iff.
  unfold process_event. by rewrite Hb, Ha.
Qed.




(** ** The life cycle *)

Lemma detect_controller_last_state env self :
  last_state (fst (detect_controller env self)) = last_state self.
Proof.
  unfold detect_controller.
  destruct (find_joystick_device env) as [path|]; [|done].
  destruct (negb _); [done|]. by destruct (js_open_ok env path).
Qed.

(** C4 as stated fails: a first run of the loop that reads a press of
    button [A] and is then stopped leaves the remapper with the flag of
    the button set; the next run starts polling with that flag, not with
    empty flags, and a press of [A] read in it dispatches nothing. *)
Lemma restart_keeps_flags :
  run_loop LittleEndian example_world example_env
    (fst (start new_remapper)) [press_A_then_stop]
  = (set_last_state new_remapper {[ "button_0" := true ]},
     [("A", " ")], Returned)
  /\ polling_entry_state example_env
       (fst (start (set_last_state new_remapper {[ "button_0" := true ]})))
     = Some {[ "button_0" := true ]}
  /\ polling_entry_state example_env
       (fst (start (set_last_state new_remapper {[ "button_0" := true ]})))
     <> Some ∅
  /\ run_loop LittleEndian example_world example_env
       (fst (start (set_last_state new_remapper {[ "button_0" := true ]})))
       [press_A_then_stop]
     = (set_last_state new_remapper {[ "button_0" := true ]}, [], Returned).
Proof.
  assert (Hentry :
    polling_entry_state example_env
      (fst (start (set_last_state new_remapper {[ "button_0" := true ]})))
    = Some {[ "button_0" := true ]}) by reflexivity.
  split; [vm_compute; reflexivity|]. split; [exact Hentry|].
  split; [|vm_compute; reflexivity].
  rewrite Hentry. intros Heq.
  apply (f_equal (fun o : option (gmap string bool) =>
                    o ≫= fun st => st !! "button_0")) in Heq.
  discriminate Heq.
Qed.

(** C4, as amended: the flags are empty when the remapper object is
    created and no run of the input loop resets them: [start] and [stop]
    leave them alone, each entry to polling starts from the flags the
    object holds at that time (those the previous run left), and closing
    the device at the end of a run does not touch them. *)
Theorem flags_survive_restart (codec : JsonCodec) :
  (forall w, last_state (fst (init w)) = ∅)
  /\ (forall self, last_state (fst (start self)) = last_state self)
  /\ (forall self, last_state (stop self) = last_state self)
  /\ (forall env self,
        polling_entry_state env self =
        if snd (detect_controller env self) then Some (last_state self)
        else None)
  /\ (forall bo w env self sched,
        last_state (run_loop bo w env self sched).1.1 =
        if snd (detect_controller env self)
        then last_state
               (polling bo w (fst (detect_controller env self)) [] sched).1.1
        else last_state self).
Proof.
  split; [|split; [|split; [|split]]].
  - intros w. unfold init. by destruct (load_config w).
  - intros self. unfold start. by destruct (running self).
  - done.
  - intros env self. unfold polling_entry_state.
    pose proof (detect_controller_last_state env self) as Hst.
    destruct (detect_controller env self) as [self1 detected].
    cbn [fst snd] in *. by rewrite Hst.
  - intros bo w env self sched. unfold run_loop.
    pose proof (detect_controller_last_state env self) as Hst.
    destruct (detect_controller env self) as [self1 detected].
    cbn [fst snd] in *. destruct detected.
    + destruct (polling bo w self1 [] sched) as [[self2 sent] out].
      destruct out; [|done]. by destruct (js_device self2).
    + cbn. by destruct (js_device self1).
Qed.

(** ** The example codec reads back what it writes *)

Lemma string_app_assoc (a b c : string) : (a +:+ b) +:+ c = a +:+ (b +:+ c).
Proof.
  induction a as [|x a IH]; [done|].
  change (String x ((a +:+ b) +:+ c) = String x (a +:+ (b +:+ c))).
  by rewrite IH.
Qed.

Lemma string_app_nil_r (a : string) : a +:+ "" = a.
Proof.
  induction a as [|x a IH]; [done|].
  change (String x (a +:+ "") = String x a). by rewrite IH.
Qed.

Lemma parse_escape_char is_key k acc d c rest :
  JsonText.parse (JsonText.InString is_key k acc) d
    (JsonText.escape_char c +:+ rest)
  = JsonText.parse (JsonText.InString is_key k (JsonText.snoc acc c)) d rest.
Proof. by destruct c as [[] [] [] [] [] [] [] []]. Qed.

Lemma parse_escape is_key k acc d s rest :
  JsonText.parse (JsonText.InString is_key k acc) d (JsonText.escape s +:+ rest)
  = JsonText.parse (JsonText.InString is_key k (acc +:+ s)) d rest.
Proof.
  revert acc. induction s as [|c s IH]; intros acc.
  - cbn [JsonText.escape String.append]. by rewrite string_app_nil_r.
  - cbn [JsonText.escape]. rewrite string_app_assoc, parse_escape_char, IH.
    unfold JsonText.snoc. by rewrite string_app_assoc.
Qed.

Lemma parse_encoded_key k d s rest :
  JsonText.parse (JsonText.InString true k "") d
    (JsonText.escape s +:+ String JsonText.dquote rest)
  = JsonText.parse (JsonText.Colon s) d rest.
Proof. by rewrite parse_escape. Qed.

Lemma parse_encoded_value k d s rest :
  JsonText.parse (JsonText.InString false k "") d
    (JsonText.escape s +:+ String JsonText.dquote rest)
  = JsonText.parse JsonText.AfterValue (<[k := s]> d) rest.
Proof. by rewrite parse_escape. Qed.

Lemma encode_string_app s rest :
  JsonText.encode_string s +:+ rest
  = String JsonText.dquote
      (JsonText.escape s +:+ String JsonText.dquote rest).
Proof.
  unfold JsonText.encode_string.
  change (String JsonText.dquote
            ((JsonText.escape s +:+ String JsonText.dquote "") +:+ rest)
          = String JsonText.dquote
              (JsonText.escape s +:+ String JsonText.dquote rest)).
  by rewrite string_app_assoc.
Qed.

Lemma parse_entry st d k v rest :
  st = JsonText.KeyOrEnd \/ st = JsonText.Key ->
  JsonText.parse st d
    ("  " +:+ JsonText.encode_string k +:+ ": "
     +:+ JsonText.encode_string v +:+ rest)
  = JsonText.parse JsonText.AfterValue (<[k := v]> d) rest.
Proof.
  intros Hst. rewrite !encode_string_app.
  transitivity (JsonText.parse (JsonText.InString true "" "") d
    (JsonText.escape k +:+ String JsonText.dquote
       (String ":" (String " " (String JsonText.dquote
          (JsonText.escape v +:+ String JsonText.dquote rest)))))).
  { by destruct Hst as [-> | ->]. }
  rewrite parse_encoded_key.
  transitivity (JsonText.parse (JsonText.InString false k "") d
    (JsonText.escape v +:+ String JsonText.dquote rest)); [done|].
  apply parse_encoded_value.
Qed.

Lemma parse_items st d items :
  st = JsonText.KeyOrEnd \/ st = JsonText.Key -> items <> [] ->
  JsonText.parse st d
    (JsonText.dump_items items +:+ JsonText.newline +:+ "}")
  = Some (foldl (fun d kv => <[kv.1 := kv.2]> d) d items).
Proof.
  intros Hst Hne. revert st d Hst.
  induction items as [|[k v] items IH]; intros st d Hst; [done|].
  destruct items as [|kv items].
  - cbn [JsonText.dump_items foldl fst snd].
    rewrite !string_app_assoc, parse_entry by done. done.
  - cbn [foldl fst snd].
    change (JsonText.dump_items ((k, v) :: kv :: items)) with
      ("  " +:+ JsonText.encode_string k +:+ ": "
       +:+ JsonText.encode_string v +:+ ","
       +:+ JsonText.newline +:+ JsonText.dump_items (kv :: items)).
    rewrite !string_app_assoc, parse_entry by done.
    transitivity (JsonText.parse JsonText.Key (<[k := v]> d)
      (JsonText.dump_items (kv :: items) +:+ JsonText.newline +:+ "}"));
      [done|].
    rewrite IH by (done || by right). done.
Qed.

Lemma foldl_insert_union (items : list (string * string))
    (d : gmap string string) :
  foldl (fun d kv => <[kv.1 := kv.2]> d) d items
  = list_to_map (reverse items) ∪ d.
Proof.
  revert d. induction items as [|[k v] items IH]; intros d.
  - cbn. by rewrite (left_id_L ∅ (∪)).
  - cbn [foldl fst snd]. rewrite IH, reverse_cons, list_to_map_app.
    cbn [list_to_map foldr]. rewrite <- (assoc_L (∪)).
    f_equal. rewrite insert_empty. by rewrite <- insert_union_singleton_l.
Qed.

(** Every document is read back from its text. *)
Lemma load_dump (d : gmap string string) :
  JsonText.load (JsonText.dump d) = Some d.
Proof.
  unfold JsonText.load, JsonText.dump.
  destruct (map_to_list d) as [|kv items] eqn:Hitems.
  - apply map_to_list_empty_iff in Hitems as ->. done.
  - transitivity (JsonText.parse JsonText.KeyOrEnd ∅
      (JsonText.dump_items (kv :: items) +:+ JsonText.newline +:+ "}"));
      [done|].
    rewrite parse_items by (done || by left). f_equal.
    rewrite foldl_insert_union, (right_id_L ∅ (∪)), <- Hitems.
    rewrite <- (list_to_map_to_list d) at 2.
    apply list_to_map_proper.
    + rewrite fmap_reverse, reverse_Permutation.
      apply NoDup_fst_map_to_list.
    + apply reverse_Permutation.
Qed.

(** ** The configuration file *)

Lemma alloc_spec w d :
  let '(l, w') := alloc w d in
  heap w !! l = None /\ heap w' !! l = Some d
  /\ (forall l', l' <> l -> heap w' !! l' = heap w !! l')
  /\ config_file w' = config_file w /\ can_create w' = can_create w.
Proof.
  unfold alloc. cbn [heap set_heap config_file can_create].
  pose proof (is_fresh (dom (heap w))) as Hfresh.
  apply not_elem_of_dom in Hfresh.
  split; [done|]. split; [apply lookup_insert_eq|].
  split; [|done]. intros l' Hne. by apply lookup_insert_ne.
Qed.

Lemma load_config_fallback `{JsonCodec} w :
  load_fails w -> load_config w = dict_copy w DEFAULT_MAPPINGS_loc.
Proof.
  unfold load_fails, load_config.
  destruct (config_file w) as [f|]; [|done].
  intros [Hr|Hp]; [by rewrite Hr|]. rewrite Hp. by destruct (readable f).
Qed.

Lemma load_config_parsed `{JsonCodec} w f d :
  config_file w = Some f -> readable f = true ->
  json_load (text f) = Some d -> load_config w = alloc w d.
Proof. intros Hf Hr Hp. unfold load_config. by rewrite Hf, Hr, Hp. Qed.

Lemma default_mappings_items :
  map_to_list DEFAULT_MAPPINGS ≡ₚ DEFAULT_MAPPINGS_items
  /\ length DEFAULT_MAPPINGS_items = 14%nat.
Proof.
  split; [|done]. apply map_to_list_to_map.
  by apply (bool_decide_unpack (NoDup (DEFAULT_MAPPINGS_items.*1))).
Qed.

(** The built-in table is never written: every dictionary the remapper
    holds is a new object, and the dialog writes through the remapper's
    reference only. *)
Lemma alloc_default_intact w d :
  default_intact w ->
  fst (alloc w d) <> DEFAULT_MAPPINGS_loc /\ default_intact (snd (alloc w d)).
Proof.
  intros Hdef. pose proof (alloc_spec w d) as Ha.
  destruct (alloc w d) as [l w']. cbn [fst snd].
  destruct Ha as (Hnew & _ & Hother & _).
  assert (Hne : l <> DEFAULT_MAPPINGS_loc).
  { intros ->. unfold default_intact in Hdef. congruence. }
  split; [done|]. unfold default_intact. by rewrite Hother.
Qed.

Lemma load_config_default_intact `{JsonCodec} w :
  default_intact w ->
  fst (load_config w) <> DEFAULT_MAPPINGS_loc
  /\ default_intact (snd (load_config w)).
Proof.
  intros Hdef. unfold load_config, dict_copy.
  destruct (config_file w) as [f|]; [|by apply alloc_default_intact].
  destruct (readable f); [|by apply alloc_default_intact].
  destruct (json_load (text f)); by apply alloc_default_intact.
Qed.

Lemma init_default_intact `{JsonCodec} w :
  default_intact w ->
  mappings (fst (init w)) <> DEFAULT_MAPPINGS_loc
  /\ default_intact (snd (init w)).
Proof.
  intros Hdef. unfold init.
  pose proof (load_config_default_intact w Hdef) as Hl.
  by destruct (load_config w) as [l w'].
Qed.

Lemma save_config_heap `{JsonCodec} w self :
  heap (fst (save_config w self)) = heap w.
Proof.
  unfold save_config. destruct (config_file w) as [f|].
  - by destruct (writable f).
  - by destruct (can_create w).
Qed.

Lemma add_mapping_default_intact `{JsonCodec} w self button input :
  default_intact w -> mappings self <> DEFAULT_MAPPINGS_loc ->
  default_intact (fst (add_mapping w self button input)).
Proof.
  intros Hdef Hne. unfold add_mapping. cbn zeta.
  destruct (_ && _); [|done].
  unfold default_intact. rewrite save_config_heap.
  unfold dict_setitem. cbn [heap set_heap]. by rewrite lookup_alter_ne.
Qed.

Lemma remove_mapping_default_intact `{JsonCodec} w self button :
  default_intact w -> mappings self <> DEFAULT_MAPPINGS_loc ->
  default_intact (fst (remove_mapping w self button)).
Proof.
  intros Hdef Hne. unfold remove_mapping.
  destruct (_ ≫= _); [|done].
  unfold default_intact. rewrite save_config_heap.
  unfold dict_delitem. cbn [heap set_heap]. by rewrite lookup_alter_ne.
Qed.

(** C5: when the configuration file is missing, cannot be read or does not
    parse, [load_config] returns a new dictionary that holds exactly the
    fourteen entries of the built-in defaults; it always returns (the bare
    [except] lets no error out), leaves the file as it is, and later
    updates of the returned dictionary leave the built-in table intact. *)
Theorem load_config_falls_back (codec : JsonCodec) (w : world) :
  default_intact w -> load_fails w ->
  let '(l, w') := load_config w in
  heap w' !! l = Some DEFAULT_MAPPINGS
  /\ map_to_list DEFAULT_MAPPINGS ≡ₚ DEFAULT_MAPPINGS_items
  /\ length DEFAULT_MAPPINGS_items = 14%nat
  /\ l <> DEFAULT_MAPPINGS_loc /\ heap w !! l = None
  /\ (forall l', l' <> l -> heap w' !! l' = heap w !! l')
  /\ config_file w' = config_file w
  /\ (forall k v, default_intact (dict_setitem w' l k v))
  /\ (forall k, default_intact (dict_delitem w' l k)).
Proof.
  intros Hdef Hfail. rewrite load_config_fallback by done.
  unfold dict_copy. unfold default_intact in Hdef. rewrite Hdef. cbn [default from_option id].
  pose proof (alloc_spec w DEFAULT_MAPPINGS) as Ha.
  destruct (alloc w DEFAULT_MAPPINGS) as [l w'].
  destruct Ha as (Hnew & Hl & Hother & Hfile & _).
  assert (Hne : l <> DEFAULT_MAPPINGS_loc) by (intros ->; congruence).
  destruct default_mappings_items as [Hitems Hlen].
  repeat (split; [done|]).
  split.
  - intros k v. unfold default_intact, dict_setitem. cbn [heap set_heap].
    rewrite lookup_alter_ne by done. by rewrite Hother.
  - intros k. unfold default_intact, dict_delitem. cbn [heap set_heap].
    rewrite lookup_alter_ne by done. by rewrite Hother.
Qed.

Lemma load_config_falls_back_witness :
  default_intact
    (initial_world (Some {| readable := true; writable := true;
                            text := "{not json" |}) true)
  /\ @load_fails JsonText.codec
       (initial_world (Some {| readable := true; writable := true;
                               text := "{not json" |}) true)
  /\ heap (snd (@load_config JsonText.codec
             (initial_world (Some {| readable := true; writable := true;
                                     text := "{not json" |}) true)))
       !! fst (@load_config JsonText.codec
             (initial_world (Some {| readable := true; writable := true;
                                     text := "{not json" |}) true))
     = Some DEFAULT_MAPPINGS.
Proof.
  assert (Hdef : default_intact
    (initial_world (Some {| readable := true; writable := true;
                            text := "{not json" |}) true)) by reflexivity.
  assert (Hfail : @load_fails JsonText.codec
    (initial_world (Some {| readable := true; writable := true;
                            text := "{not json" |}) true))
    by (right; vm_compute; reflexivity).
  split; [exact Hdef|]. split; [exact Hfail|].
  pose proof (load_config_falls_back JsonText.codec _ Hdef Hfail) as Hload.
  destruct (@load_config JsonText.codec _) as [l w'].
  exact (proj1 Hload).
Defined.

Lemma save_config_load_config `{JsonCodec} (w : world)
    (self : ControllerRemapper) (m : gmap string string) :
  heap w !! mappings self = Some m ->
  json_load (json_dump m) = Some m ->
  file_usable w ->
  exists w',
    save_config w self = (w', Returned)
    /\ heap (snd (load_config w')) !! fst (load_config w') = Some m.
Proof.
  intros Hm Hround Husable. unfold save_config, file_usable in *.
  rewrite Hm. cbn [default from_option id].
  destruct (config_file w) as [f|] eqn:Hf.
  - destruct Husable as [Hw Hr]. rewrite Hw. eexists. split; [done|].
    erewrite load_config_parsed; [|done|done|exact Hround].
    pose proof (alloc_spec (set_config_file w
      (Some {| readable := readable f; writable := true;
               text := json_dump m |})) m) as Ha.
    destruct (alloc _ m) as [l w']. by destruct Ha as (_ & Hl & _).
  - rewrite Husable. eexists. split; [done|].
    erewrite load_config_parsed; [|done|done|exact Hround].
    pose proof (alloc_spec (set_config_file w
      (Some {| readable := true; writable := true;
               text := json_dump m |})) m) as Ha.
    destruct (alloc _ m) as [l w']. by destruct Ha as (_ & Hl & _).
Qed.

Lemma example_world_mappings :
  heap example_world !! mappings new_remapper = Some DEFAULT_MAPPINGS.
Proof.
  unfold example_world, new_remapper, init.
  change (@load_config JsonText.codec (initial_world None true))
    with (dict_copy (initial_world None true) DEFAULT_MAPPINGS_loc).
  unfold dict_copy.
  pose proof (alloc_spec (initial_world None true)
    (default ∅ (heap (initial_world None true) !! DEFAULT_MAPPINGS_loc)))
    as Ha.
  destruct (alloc _ _) as [l w']. by destruct Ha as (_ & Hl & _).
Qed.

(** C6: for every mapping document (a finite map from identifier strings
    to combination strings), saving it to a configuration file that can be
    written and read back, and then loading, gives a dictionary equal to
    the document (equality of finite maps: the same keys with the same
    values, whatever their order). This holds for every codec that reads
    the document back from the text it writes for it, and so for every
    document under the text format of [json.dump] with [indent=2]. *)
Theorem save_then_load :
  (forall (codec : JsonCodec) (w : world) (self : ControllerRemapper)
          (m : gmap string string),
     heap w !! mappings self = Some m ->
     json_load (json_dump m) = Some m ->
     file_usable w ->
     exists w',
       save_config w self = (w', Returned)
       /\ heap (snd (load_config w')) !! fst (load_config w') = Some m)
  /\ (forall (w : world) (self : ControllerRemapper)
             (m : gmap string string),
        heap w !! mappings self = Some m ->
        file_usable w ->
        exists w',
          @save_config JsonText.codec w self = (w', Returned)
          /\ heap (snd (@load_config JsonText.codec w'))
               !! fst (@load_config JsonText.codec w') = Some m).
Proof.
  split.
  - intros codec w self m. apply save_config_load_config.
  - intros w self m Hm Husable.
    apply (@save_config_load_config JsonText.codec); [done| |done].
    apply load_dump.
Qed.

Lemma save_then_load_witness :
  heap example_world !! mappings new_remapper = Some DEFAULT_MAPPINGS
  /\ JsonText.load (JsonText.dump DEFAULT_MAPPINGS) = Some DEFAULT_MAPPINGS
  /\ file_usable example_world
  /\ (exists w',
       @save_config JsonText.codec example_world new_remapper = (w', Returned)
       /\ heap (snd (@load_config JsonText.codec w'))
            !! fst (@load_config JsonText.codec w')
          = Some DEFAULT_MAPPINGS)
  /\ (exists w',
       @save_config JsonText.codec
         (set_config_file example_world
            (Some {| readable := true; writable := true; text := "{}" |}))
         new_remapper = (w', Returned)
       /\ heap (snd (@load_config JsonText.codec w'))
            !! fst (@load_config JsonText.codec w')
          = Some DEFAULT_MAPPINGS).
Proof.
  split; [exact example_world_mappings|].
  split; [exact (load_dump DEFAULT_MAPPINGS)|].
  split; [reflexivity|]. split.
  - exact (proj1 save_then_load JsonText.codec example_world new_remapper
             DEFAULT_MAPPINGS example_world_mappings
             (load_dump DEFAULT_MAPPINGS) eq_refl).
  - exact (proj2 save_then_load
             (set_config_file example_world
                (Some {| readable := true; writable := true; text := "{}" |}))
             new_remapper DEFAULT_MAPPINGS example_world_mappings
             (conj eq_refl eq_refl)).
Defined.

(** * Further properties of the program *)

(** ** Decoding a record *)

Lemma byte_of_val b : byte_of (byte_val b) = b.
Proof.
  unfold byte_of. pose proof (byte_val_range b) as Hb.
  rewrite Z.mod_small by done. unfold byte_val.
  by rewrite N2Z.id, Byte.of_to_N.
Qed.

Lemma le_bytes_unsigned_of bs :
  le_bytes (length bs) (unsigned_of LittleEndian bs) = bs.
Proof.
  induction bs as [|b bs IH]; [done|].
  unfold unsigned_of in *. cbn [length le_bytes fold_right].
  pose proof (byte_val_range b) as Hb.
  rewrite lor_shiftl_add by done.
  set (hi := fold_right _ 0 bs) in *.
  assert (byte_of (byte_val b + 256 * hi) = b) as ->.
  { rewrite <- (byte_of_val b) at 2. unfold byte_of.
    replace ((byte_val b + 256 * hi) mod 256) with (byte_val b mod 256);
      [done|].
    replace (byte_val b + 256 * hi) with (byte_val b + hi * 256) by lia.
    by rewrite Z.mod_add by lia. }
  f_equal. rewrite Z.shiftr_div_pow2 by lia. change (2 ^ 8) with 256.
  replace ((byte_val b + 256 * hi) / 256) with hi; [done|].
  replace (byte_val b + 256 * hi) with (byte_val b + hi * 256) by lia.
  rewrite Z.div_add by lia.
  rewrite (Z.div_small (byte_val b)) by done. lia.
Qed.

Lemma field_unsigned_of bo bs :
  match bo with
  | LittleEndian => le_bytes (length bs) (unsigned_of bo bs)
  | BigEndian => rev (le_bytes (length bs) (unsigned_of bo bs))
  end = bs.
Proof.
  destruct bo; [apply le_bytes_unsigned_of|].
  unfold unsigned_of. rewrite <- (length_rev bs).
  pose proof (le_bytes_unsigned_of (rev bs)) as Hle.
  unfold unsigned_of in Hle. rewrite Hle. apply rev_involutive.
Qed.

Lemma unsigned_of_quad bo a b c d :
  0 <= unsigned_of bo [a; b; c; d] < 2 ^ 32.
Proof.
  pose proof (byte_val_range a). pose proof (byte_val_range b).
  pose proof (byte_val_range c). pose proof (byte_val_range d).
  unfold unsigned_of. destruct bo; cbn [rev app fold_right];
    rewrite Z.shiftl_0_l, Z.lor_0_r, !lor_shiftl_add by done; lia.
Qed.

Lemma signed16_unsigned raw :
  0 <= raw < 65536 -> signed16 raw mod 65536 = raw.
Proof.
  intros Hraw. unfold signed16.
  destruct (raw <? 32768); [by apply Z.mod_small|].
  replace (raw - 65536) with (raw + (-1) * 65536) by lia.
  rewrite Z.mod_add by lia. by apply Z.mod_small.
Qed.

(** X1: a read is decoded exactly when it has [EVENT_SIZE] bytes. The
    decoded record has a timestamp below 2^32, a value in the signed
    16-bit range and a type and a number in the range of a byte, and it
    determines the bytes it was read from: in either byte order, no two
    reads decode to the same record. *)
Theorem unpack_decodes (bo : byteorder) (data : list byte) :
  (is_Some (unpack bo data) <-> length data = EVENT_SIZE)
  /\ (forall e,
        unpack bo data = Some e ->
        0 <= timestamp e < 2 ^ 32 /\ int16 (value e)
        /\ 0 <= event_type e < 256 /\ 0 <= number e < 256)
  /\ (forall data' e,
        unpack bo data = Some e -> unpack bo data' = Some e -> data = data').
Proof.
  assert (Hpack : forall d e, unpack bo d = Some e -> pack bo e = d).
  { intros d e He. unfold unpack in He.
    do 9 (destruct d as [|? d]; try discriminate). injection He as <-.
    unfold pack. cbn [timestamp value event_type number].
    rewrite signed16_unsigned by apply unsigned_of_pair.
    rewrite !byte_of_val.
    pose proof (field_unsigned_of bo [b; b0; b1; b2]) as H4.
    pose proof (field_unsigned_of bo [b3; b4]) as H2.
    cbn [length] in H4, H2. destruct bo; by rewrite H4, H2. }
  split; [|split].
  - split; [intros [e He]; by eapply unpack_length|apply unpack_total].
  - intros e He.
    destruct (unpack_ranges _ _ _ He) as (Hv & Hty & Hn).
    split; [|done]. clear Hv Hty Hn. unfold unpack in He.
    do 9 (destruct data as [|? data]; try discriminate).
    injection He as <-. apply unsigned_of_quad.
  - intros data' e He He'. by rewrite <- (Hpack _ _ He), <- (Hpack _ _ He').
Qed.

(** ** A call of [process_controller_input] *)

Lemma read_loop_fields bo w self reads :
  let self' := (read_loop bo w self reads).1.1.1 in
  mappings self' = mappings self /\ running self' = running self
  /\ js_device self' = js_device self.
Proof.
  revert self. induction reads as [|r reads IH]; intros self; [done|].
  cbn [read_loop]. destruct r as [|data|]; [done| |done].
  destruct (length data =? 0)%nat; [done|].
  destruct (length data <? EVENT_SIZE)%nat; [done|].
  destruct (unpack bo data) as [e|]; [|done].
  pose proof (process_event_fields w self e) as He.
  destruct (process_event w self e) as [self1 sent1].
  specialize (IH self1).
  destruct (read_loop bo w self1 reads) as [[[self2 sent2] rest] out].
  cbn [fst] in *. intuition congruence.
Qed.





(** ** Finding the controller *)

Lemma find_seq (f : nat -> bool) (s n : nat) :
  match find f (seq s n) with
  | Some i =>
      (s <= i < s + n)%nat /\ f i = true
      /\ forall j, (s <= j < i)%nat -> f j = false
  | None => forall j, (s <= j < s + n)%nat -> f j = false
  end.
Proof.
  revert s. induction n as [|n IH]; intros s; cbn [seq find].
  - intros j Hj. lia.
  - destruct (f s) eqn:Hs.
    + split; [lia|]. split; [done|]. intros j Hj. lia.
    + specialize (IH (S s)). destruct (find f (seq (S s) n)) as [i|].
      * destruct IH as (Hi & Hfi & Hlow). split; [lia|]. split; [done|].
        intros j Hj. destruct (decide (j = s)) as [->|Hne]; [done|].
        apply Hlow. lia.
      * intros j Hj. destruct (decide (j = s)) as [->|Hne]; [done|].
        apply IH. lia.
Qed.

Lemma find_joystick_device_spec env :
  match find_joystick_device env with
  | Some path =>
      exists i, path = js_path i /\ (i < 16)%nat /\ js_exists env i = true
                /\ forall j, (j < i)%nat -> js_exists env j = false
  | None => forall j, (j < 16)%nat -> js_exists env j = false
  end.
Proof.
  unfold find_joystick_device.
  pose proof (find_seq (js_exists env) 0 16) as Hfind.
  destruct (find (js_exists env) (seq 0 16)) as [i|]; cbn [fmap option_fmap option_map].
  - destruct Hfind as (Hi & Hfi & Hlow). exists i.
    split; [done|]. split; [lia|]. split; [done|].
    intros j Hj. apply Hlow. lia.
  - intros j Hj. apply Hfind. lia.
Qed.

Lemma lowest_unique (f : nat -> bool) (i i' : nat) :
  f i = true -> (forall j, (j < i)%nat -> f j = false) ->
  f i' = true -> (forall j, (j < i')%nat -> f j = false) -> i = i'.
Proof.
  intros Hi Hlow Hi' Hlow'.
  destruct (Nat.lt_trichotomy i i') as [Hlt|[->|Hgt]]; [|done|].
  - specialize (Hlow' i Hlt). congruence.
  - specialize (Hlow i' Hgt). congruence.
Qed.

(** X3: [find_joystick_device] returns the path of the lowest-numbered
    node among [/dev/input/js0] .. [/dev/input/js15] that exists, and
    nothing exactly when none of the sixteen exists; a node with a
    higher number is not looked at. *)
Theorem find_joystick_device_lowest (env : js_env) :
  (forall path,
     find_joystick_device env = Some path <->
     exists i, path = js_path i /\ (i < 16)%nat /\ js_exists env i = true
               /\ forall j, (j < i)%nat -> js_exists env j = false)
  /\ (find_joystick_device env = None <->
      forall i, (i < 16)%nat -> js_exists env i = false).
Proof.
  pose proof (find_joystick_device_spec env) as Hspec.
  destruct (find_joystick_device env) as [path'|]; split.
  - intros path. destruct Hspec as (i' & -> & Hlt' & Hex' & Hlow').
    split.
    + intros [= <-]. by exists i'.
    + intros (i & -> & Hlt & Hex & Hlow).
      by rewrite (lowest_unique _ _ _ Hex Hlow Hex' Hlow').
  - destruct Hspec as (i' & -> & Hlt' & Hex' & Hlow').
    split; [done|]. intros Hnone. specialize (Hnone i' Hlt'). congruence.
  - intros path. split; [done|].
    intros (i & -> & Hlt & Hex & Hlow). specialize (Hspec i Hlt). congruence.
  - done.
Qed.

(** X4: [detect_controller] succeeds exactly when the lowest-numbered
    node that exists can be opened, by the probe of
    [is_8bitdo_controller] and then by [detect_controller] itself; the
    device of the remapper is then that node, and no other field
    changes. There is no second try: when that node cannot be opened,
    detection fails even if another joystick exists. *)
Theorem detect_controller_first_node
    (env : js_env) (self : ControllerRemapper) :
  (forall self',
     detect_controller env self = (self', true) <->
     exists i, (i < 16)%nat /\ js_exists env i = true
       /\ (forall j, (j < i)%nat -> js_exists env j = false)
       /\ js_probe_ok env (js_path i) = true
       /\ js_open_ok env (js_path i) = true
       /\ self' = set_js_device self (Some (js_path i)))
  /\ (forall i,
        (i < 16)%nat -> js_exists env i = true ->
        (forall j, (j < i)%nat -> js_exists env j = false) ->
        js_probe_ok env (js_path i) && js_open_ok env (js_path i) = false ->
        snd (detect_controller env self) = false).
Proof.
  pose proof (find_joystick_device_spec env) as Hspec.
  unfold detect_controller, is_8bitdo_controller.
  destruct (find_joystick_device env) as [path|].
  - destruct Hspec as (i' & -> & Hlt' & Hex' & Hlow').
    split.
    + intros self'. split.
      * destruct (js_probe_ok env (js_path i')) eqn:Hp; cbn [negb];
          [|by intros [=]].
        destruct (js_open_ok env (js_path i')) eqn:Ho; [|by intros [=]].
        intros [= <-]. by exists i'.
      * intros (i & Hlt & Hex & Hlow & Hp & Ho & ->).
        rewrite (lowest_unique _ _ _ Hex Hlow Hex' Hlow') in Hp, Ho |- *.
        by rewrite Hp, Ho.
    + intros i Hlt Hex Hlow Hfail.
      rewrite (lowest_unique _ _ _ Hex Hlow Hex' Hlow') in Hfail.
      destruct (js_probe_ok env (js_path i')); cbn [negb andb] in *; [|done].
      by rewrite Hfail.
  - split.
    + intros self'. split; [by intros [=]|].
      intros (i & Hlt & Hex & _). specialize (Hspec i Hlt). congruence.
    + done.
Qed.

(** ** The input loop *)

Lemma process_controller_input_fields bo w self reads :
  let self' := (process_controller_input bo w self reads).1.1.1 in
  mappings self' = mappings self /\ running self' = running self
  /\ js_device self' = js_device self.
Proof.
  unfold process_controller_input.
  destruct (js_device self) eqn:Hdev; [|done].
  cbn zeta. rewrite <- Hdev. apply read_loop_fields.
Qed.



Lemma polling_not_running bo w self pending sched :
  running self = false ->
  polling bo w self pending sched = (self, [], Returned).
Proof. intros Hrun. destruct sched; [done|]. cbn [polling]. by rewrite Hrun. Qed.






(** X6: [stop] ends the loop after the iteration in which it is called.
    Whatever the device delivers in later iterations is neither read nor
    dispatched: the loop behaves as if the schedule ended there, and
    when it returns the running flag is cleared. *)
Theorem stop_ends_polling
    (bo : byteorder) (w : world) (self : ControllerRemapper)
    (pending : list read_result) (sched1 : list tick) (t : tick)
    (sched2 : list tick) :
  stop_after t = true ->
  polling bo w self pending (sched1 ++ t :: sched2)
  = polling bo w self pending (sched1 ++ [t])
  /\ (forall self' sent,
        polling bo w self pending (sched1 ++ t :: sched2)
        = (self', sent, Returned) ->
        running self' = false).
Proof.
  intros Hstop. revert self pending.
  induction sched1 as [|t1 sched1 IH]; intros self pending.
  - cbn [app polling]. destruct (running self) eqn:Hrun; cbn [negb].
    + pose proof (process_controller_input_fields bo w self
                    (pending ++ tick_reads t)) as Hf.
      destruct (process_controller_input bo w self (pending ++ tick_reads t))
        as [[[self1 sent1] unread] out].
      destruct out; [|by split]. rewrite Hstop.
      rewrite polling_not_running by done. split; [done|].
      by intros self' sent [= <- _].
    + split; [done|]. by intros self' sent [= <- _].
  - cbn [app polling]. destruct (running self) eqn:Hrun; cbn [negb].
    + destruct (process_controller_input bo w self (pending ++ tick_reads t1))
        as [[[self1 sent1] unread] out].
      destruct out; [|by split].
      destruct (IH (if stop_after t1 then set_running self1 false else self1)
                  unread) as [IH1 IH2].
      rewrite IH1. split; [done|]. rewrite <- IH1.
      destruct (polling bo w _ unread (sched1 ++ t :: sched2))
        as [[self2 sent2] out2] eqn:Hp.
      intros self' sent [= <- _ ->]. by eapply IH2.
    + split; [done|]. by intros self' sent [= <- _].
Qed.

Lemma stop_ends_polling_witness :
  stop_after press_A_then_stop = true
  /\ polling LittleEndian example_world example_remapper []
       ([] ++ press_A_then_stop :: [press_A_then_stop])
     = polling LittleEndian example_world example_remapper []
         ([] ++ [press_A_then_stop])
  /\ (forall self' sent,
        polling LittleEndian example_world example_remapper []
          ([] ++ press_A_then_stop :: [press_A_then_stop])
        = (self', sent, Returned) ->
        running self' = false).
Proof.
  split; [reflexivity|].
  exact (stop_ends_polling LittleEndian example_world example_remapper []
           [] press_A_then_stop [press_A_then_stop] eq_refl).
Defined.

(** ** Counting the presses of a button *)





(** ** Directions of an axis *)







(** ** Controls without a name *)

(** X9: a record of an axis other than 0 and 1 changes nothing and
    dispatches nothing. A button record whose number is not in
    [CONTROLLER_BUTTONS] dispatches nothing either, but its state is
    still written to the flags, under the key of its number. *)
Theorem unnamed_controls_send_nothing
    (w : world) (self : ControllerRemapper) (e : js_event) :
  (is_axis_record e = true -> number e <> 0 -> number e <> 1 ->
   process_event w self e = (self, []))
  /\ (Z.land (event_type e) JS_EVENT_BUTTON <> 0 ->
      CONTROLLER_BUTTONS !! number e = None ->
      process_event w self e =
      (set_last_state self
         (<[button_key (number e) := pressed e]> (last_state self)), []))
  /\ (forall n, CONTROLLER_BUTTONS !! n = None <-> ~ 0 <= n <= 11).
Proof.
  split; [|split].
  - intros Haxis H0 H1. rewrite is_axis_record_handling by done.
    unfold axis_handling. cbn zeta.
    apply Z.eqb_neq in H0, H1. by rewrite H0, H1.
  - intros Hbit Hnone. unfold process_event.
    apply Z.eqb_neq in Hbit. rewrite Hbit. cbn [negb].
    unfold button_handling. cbn zeta. by rewrite Hnone.
  - intros n. split.
    + intros Hnone Hn.
      assert (Hsome : forall k : nat,
                (k < 12)%nat -> is_Some (CONTROLLER_BUTTONS !! Z.of_nat k)).
      { intros k Hk. do 12 (destruct k as [|k]; [by eexists|]). lia. }
      destruct (Hsome (Z.to_nat n) ltac:(lia)) as [name Hname].
      rewrite Z2Nat.id in Hname by lia. congruence.
    + intros Hn. destruct (CONTROLLER_BUTTONS !! n) as [name|] eqn:Hname;
        [|done].
      exfalso. apply Hn. button_cases Hname; lia.
Qed.

(** ** What a record can dispatch *)

Lemma controller_buttons_values name :
  name ∈ CONTROLLER_BUTTONS_values
  <-> exists n, CONTROLLER_BUTTONS !! n = Some name.
Proof.
  split.
  - unfold CONTROLLER_BUTTONS_values. intros Hin.
    repeat (apply elem_of_cons in Hin as [->|Hin];
            [by eexists (_ : Z); apply elem_of_list_to_map_1;
               [by apply (bool_decide_unpack _)|repeat constructor]|]).
    by apply elem_of_nil in Hin.
  - intros [n Hn]. unfold CONTROLLER_BUTTONS_values.
    button_cases Hn; by repeat constructor.
Qed.

Lemma dispatch_mapped_cases w self name :
  dispatch_mapped w self name = []
  \/ exists combo,
       dispatch_mapped w self name = [(name, combo)]
       /\ mappings_get w self name = Some combo /\ combo <> "".
Proof.
  unfold dispatch_mapped.
  destruct (mappings_get w self name) as [combo|]; [|by left].
  destruct combo as [|c r]; [by left|]. right. by eexists.
Qed.

Lemma process_event_cases w self e :
  snd (process_event w self e) = []
  \/ exists name,
       name ∈ dialog_buttons
       /\ snd (process_event w self e) = dispatch_mapped w self name.
Proof.
  unfold process_event.
  destruct (negb (Z.land (event_type e) JS_EVENT_BUTTON =? 0)).
  - unfold button_handling. cbn zeta. cbn [snd].
    destruct (CONTROLLER_BUTTONS !! number e) as [name|] eqn:Hname;
      [|by left].
    destruct (_ && _); [|by left]. destruct (negb _); [|by left].
    right. exists name. split; [|done].
    apply elem_of_app. left. apply controller_buttons_values. by eexists.
  - destruct (negb (Z.land (event_type e) JS_EVENT_AXIS =? 0)); [|by left].
    unfold axis_handling, axis_pressed, axis_released. cbn zeta.
    repeat match goal with
           | |- context [if ?b then _ else _] => destruct b
           end; cbn [snd]; try (by left);
      right; eexists; (split; [|done]);
      apply elem_of_app; right; by repeat constructor.
Qed.

(** X10: a record dispatches at most one combination, and what it
    dispatches is the mapping, at that time, of one of the identifiers
    that the settings dialog offers: the names of [CONTROLLER_BUTTONS]
    and [UP], [DOWN], [LEFT], [RIGHT]; an identifier without a mapping,
    or mapped to the empty string, is never dispatched. Conversely every
    identifier of the dialog that has a mapping is dispatched by some
    record that the device can deliver, when no flag is active. *)
Theorem dispatches_are_dialog_buttons
    (w : world) (self : ControllerRemapper) :
  (forall e,
     snd (process_event w self e) = []
     \/ exists name combo,
          snd (process_event w self e) = [(name, combo)]
          /\ name ∈ dialog_buttons
          /\ mappings_get w self name = Some combo /\ combo <> "")
  /\ (forall name combo,
        name ∈ dialog_buttons ->
        mappings_get w self name = Some combo -> combo <> "" ->
        last_state self = ∅ ->
        exists e,
          int16 (value e) /\ 0 <= event_type e < 256 /\ 0 <= number e < 256
          /\ snd (process_event w self e) = [(name, combo)]).
Proof.
  split.
  - intros e. destruct (process_event_cases w self e) as [Hnil|[name [Hin ->]]];
      [by left|].
    destruct (dispatch_mapped_cases w self name) as [->|[combo (-> & ? & ?)]];
      [by left|].
    right. by exists name, combo.
  - intros name combo Hin Hget Hne Hempty.
    assert (Hflag : forall key, state_get (last_state self) key = false).
    { intros key. unfold state_get. by rewrite Hempty, lookup_empty. }
    pose proof (dispatch_mapped_Some _ _ _ _ Hget Hne) as Hsent.
    apply elem_of_app in Hin as [Hin|Hin].
    + apply controller_buttons_values in Hin as [n Hn].
      exists (js_record 1 0x01 n).
      split; [cbn; unfold int16; lia|]. split; [cbn; lia|].
      split; [cbn; button_cases Hn; lia|].
      assert (Hb : is_button_of n (js_record 1 0x01 n) = true).
      { unfold is_button_of. cbn [number event_type js_record].
        by rewrite Z.eqb_refl. }
      rewrite (button_press_step w self _ n name combo Hn Hget Hne Hb)
        by done.
      cbn [snd]. by rewrite Hflag.
    + assert (Hneg : axis_negative (-32767) = true).
      { rewrite (proj1 (axis_thresholds (-32767) ltac:(unfold int16; lia))).
        done. }
      assert (Hnot : axis_negative 32767 = false).
      { rewrite (proj1 (axis_thresholds 32767 ltac:(unfold int16; lia))).
        done. }
      assert (Hpos : axis_positive 32767 = true).
      { rewrite (proj2 (axis_thresholds 32767 ltac:(unfold int16; lia))).
        done. }
      repeat (apply elem_of_cons in Hin as [->|Hin]);
        [exists (js_record (-32767) 0x02 1)
        |exists (js_record 32767 0x02 1)
        |exists (js_record (-32767) 0x02 0)
        |exists (js_record 32767 0x02 0)
        |by apply elem_of_nil in Hin];
        (split; [cbn; unfold int16; lia|]);
        (split; [cbn; lia|]); (split; [cbn; lia|]);
        rewrite is_axis_record_handling by done;
        unfold axis_handling, axis_pressed;
        cbn [number value js_record Z.eqb];
        rewrite ?Hneg, ?Hnot, ?Hpos, Hflag; cbn [negb snd]; done.
Qed.

(** ** Editing the mappings *)

Lemma lstrip_cases s :
  (all_space s = true /\ Py.lstrip s = "")
  \/ (all_space s = false
      /\ exists c r, Py.lstrip s = String c r /\ Py.isspace c = false).
Proof.
  induction s as [|c r IH]; [by left|].
  cbn [all_space Py.lstrip]. destruct (Py.isspace c) eqn:Hc; cbn [andb].
  - done.
  - right. split; [done|]. by exists c, r.
Qed.

Lemma rstrip_nonspace c r :
  Py.isspace c = false -> Py.rstrip (String c r) <> "".
Proof.
  intros Hc. cbn [Py.rstrip]. destruct (Py.rstrip r); [by rewrite Hc|done].
Qed.

Lemma strip_all_space s : Py.strip s = "" <-> all_space s = true.
Proof.
  unfold Py.strip.
  destruct (lstrip_cases s) as [[Hall ->]|[Hall (c & r & -> & Hc)]].
  - done.
  - rewrite Hall. split; [|done]. intros Hr. by apply rstrip_nonspace in Hr.
Qed.

Lemma truthy_true s : Py.truthy s = true <-> s <> "".
Proof. destruct s; simpl; split; congruence. Qed.

Lemma save_config_cases `{JsonCodec} w self :
  heap (fst (save_config w self)) = heap w
  /\ match snd (save_config w self) with
     | Returned =>
         text <$> config_file (fst (save_config w self))
         = Some (json_dump (default ∅ (heap w !! mappings self)))
     | Raised _ => True
     end.
Proof.
  split; [apply save_config_heap|]. unfold save_config.
  destruct (config_file w) as [f|].
  - by destruct (writable f).
  - by destruct (can_create w).
Qed.

Lemma dict_setitem_lookup w l k v d :
  heap w !! l = Some d ->
  heap (dict_setitem w l k v) !! l = Some (<[k := v]> d)
  /\ (forall l', l' <> l -> heap (dict_setitem w l k v) !! l' = heap w !! l')
  /\ config_file (dict_setitem w l k v) = config_file w
  /\ can_create (dict_setitem w l k v) = can_create w.
Proof.
  intros Hd. unfold dict_setitem. cbn [heap set_heap config_file can_create].
  split; [by rewrite lookup_alter_eq, Hd|]. split; [|done].
  intros l' Hne. by rewrite lookup_alter_ne.
Qed.

Lemma dict_delitem_lookup w l k d :
  heap w !! l = Some d ->
  heap (dict_delitem w l k) !! l = Some (delete k d)
  /\ (forall l', l' <> l -> heap (dict_delitem w l k) !! l' = heap w !! l')
  /\ config_file (dict_delitem w l k) = config_file w
  /\ can_create (dict_delitem w l k) = can_create w.
Proof.
  intros Hd. unfold dict_delitem. cbn [heap set_heap config_file can_create].
  split; [by rewrite lookup_alter_eq, Hd|]. split; [|done].
  intros l' Hne. by rewrite lookup_alter_ne.
Qed.

(** X11: [add_mapping] and [update_mapping], which have the same body,
    do nothing at all when no button is selected or when the key field
    holds white space only. Otherwise the mapping object of the remapper
    maps the button to the trimmed text, every other object is left
    alone, and the input loop, which reads the same object, dispatches
    the new combination from then on; this holds whether [save_config]
    returns or raises, since the object is written first. When
    [save_config] returns, the file holds the text of the updated
    document. *)
Theorem add_mapping_takes_effect
    (codec : JsonCodec) (w : world) (self : ControllerRemapper)
    (button input : string) (d : gmap string string) :
  heap w !! mappings self = Some d ->
  (button = "" \/ all_space input = true ->
   add_mapping w self button input = (w, Returned))
  /\ (button <> "" -> all_space input = false ->
      let w' := fst (add_mapping w self button input) in
      heap w' !! mappings self = Some (<[button := Py.strip input]> d)
      /\ (forall l, l <> mappings self -> heap w' !! l = heap w !! l)
      /\ dispatch_mapped w' self button = [(button, Py.strip input)]
      /\ (snd (add_mapping w self button input) = Returned ->
          text <$> config_file w'
          = Some (json_dump (<[button := Py.strip input]> d)))).
Proof.
  intros Hd. split.
  - intros Hblank. unfold add_mapping. cbn zeta.
    destruct Hblank as [->|Hblank]; [done|].
    apply strip_all_space in Hblank. rewrite Hblank. by rewrite andb_false_r.
  - intros Hbutton Hinput. cbn zeta.
    assert (Hstrip : Py.strip input <> "").
    { rewrite strip_all_space. by rewrite Hinput. }
    unfold add_mapping. cbn zeta.
    rewrite (proj2 (truthy_true button) Hbutton).
    rewrite (proj2 (truthy_true _) Hstrip). cbn [andb].
    destruct (dict_setitem_lookup w (mappings self) button (Py.strip input)
                d Hd) as (Hnew & Hother & Hfile & _).
    destruct (save_config_cases (dict_setitem w (mappings self) button
                (Py.strip input)) self) as [Hheap Hsave].
    rewrite Hheap. split; [done|]. split; [done|]. split.
    + apply dispatch_mapped_Some; [|done].
      unfold mappings_get. rewrite Hheap, Hnew. cbn. apply lookup_insert_eq.
    + intros Hret. rewrite Hret in Hsave. by rewrite Hsave, Hnew.
Qed.

Lemma add_mapping_takes_effect_witness :
  heap example_world !! mappings new_remapper = Some DEFAULT_MAPPINGS
  /\ @add_mapping JsonText.codec example_world new_remapper "X" "   "
     = (example_world, Returned)
  /\ dispatch_mapped
       (fst (@add_mapping JsonText.codec example_world new_remapper
               "X" " Ctrl+x "))
       new_remapper "X"
     = [("X", "Ctrl+x")].
Proof.
  split; [exact example_world_mappings|]. split.
  - exact (proj1 (add_mapping_takes_effect JsonText.codec example_world
                    new_remapper "X" "   " DEFAULT_MAPPINGS
                    example_world_mappings) (or_intror eq_refl)).
  - exact (proj1 (proj2 (proj2
             (proj2 (add_mapping_takes_effect JsonText.codec example_world
                       new_remapper "X" " Ctrl+x " DEFAULT_MAPPINGS
                       example_world_mappings)
                ltac:(discriminate) eq_refl)))).
Defined.

(** X12: a mapping added in the dialog is there after a restart. When
    the configuration file can be written and read back and the codec
    reads the updated document back from its text, [add_mapping] returns
    and a remapper created afterwards holds, in an object of its own, a
    document equal to the updated one, in which the button has the
    trimmed combination. *)
Theorem add_mapping_persists
    (codec : JsonCodec) (w : world) (self : ControllerRemapper)
    (button input : string) (d : gmap string string) :
  heap w !! mappings self = Some d ->
  button <> "" -> all_space input = false ->
  file_usable w ->
  json_load (json_dump (<[button := Py.strip input]> d))
  = Some (<[button := Py.strip input]> d) ->
  snd (add_mapping w self button input) = Returned
  /\ let '(self2, w2) := init (fst (add_mapping w self button input)) in
     heap w2 !! mappings self2 = Some (<[button := Py.strip input]> d)
     /\ mappings self2 <> mappings self
     /\ mappings_get w2 self2 button = Some (Py.strip input).
Proof.
  intros Hd Hbutton Hinput Husable Hround.
  assert (Hstrip : Py.strip input <> "").
  { rewrite strip_all_space. by rewrite Hinput. }
  unfold add_mapping. cbn zeta.
  rewrite (proj2 (truthy_true button) Hbutton).
  rewrite (proj2 (truthy_true _) Hstrip). cbn [andb].
  destruct (dict_setitem_lookup w (mappings self) button (Py.strip input)
              d Hd) as (Hnew & Hother & Hfile & Hcreate).
  destruct (save_config_load_config
              (dict_setitem w (mappings self) button (Py.strip input))
              self _ Hnew Hround) as (w' & Hsave & Hload).
  { unfold file_usable in *. by rewrite Hfile, Hcreate. }
  rewrite Hsave. cbn [fst snd]. split; [done|].
  assert (Hheap : heap w' !! mappings self
                  = Some (<[button := Py.strip input]> d)).
  { pose proof (save_config_heap
                  (dict_setitem w (mappings self) button (Py.strip input))
                  self) as Hh.
    rewrite Hsave in Hh. cbn [fst] in Hh. by rewrite Hh. }
  assert (Hfresh : heap w' !! fst (load_config w') = None).
  { unfold load_config, dict_copy.
    repeat match goal with
           | |- context [match ?x with _ => _ end] => destruct x
           | |- context [if ?b then _ else _] => destruct b
           end;
      match goal with
      | |- context [alloc ?w0 ?d0] =>
          pose proof (alloc_spec w0 d0) as Ha;
          destruct (alloc w0 d0) as [l0 w0']; by destruct Ha as [? _]
      end. }
  unfold init. destruct (load_config w') as [l w2]. cbn [fst snd] in *.
  cbn [mappings]. split; [done|]. split.
  - intros ->. congruence.
  - unfold mappings_get. cbn [mappings]. rewrite Hload. cbn.
    apply lookup_insert_eq.
Qed.

Lemma add_mapping_persists_witness :
  heap example_world !! mappings new_remapper = Some DEFAULT_MAPPINGS
  /\ file_usable example_world
  /\ snd (@add_mapping JsonText.codec example_world new_remapper
            "LEFT_STICK" " Ctrl+x ")
     = Returned
  /\ mappings_get
       (snd (@init JsonText.codec
               (fst (@add_mapping JsonText.codec example_world new_remapper
                       "LEFT_STICK" " Ctrl+x "))))
       (fst (@init JsonText.codec
               (fst (@add_mapping JsonText.codec example_world new_remapper
                       "LEFT_STICK" " Ctrl+x "))))
       "LEFT_STICK"
     = Some "Ctrl+x".
Proof.
  split; [exact example_world_mappings|]. split; [reflexivity|].
  pose proof (add_mapping_persists JsonText.codec example_world new_remapper
                "LEFT_STICK" " Ctrl+x " DEFAULT_MAPPINGS
                example_world_mappings ltac:(discriminate) eq_refl eq_refl
                (load_dump _)) as [Hret Hinit].
  split; [exact Hret|].
  destruct (@init JsonText.codec _) as [self2 w2].
  exact (proj2 (proj2 Hinit)).
Defined.

(** X13: [remove_mapping] does nothing, and does not touch the file,
    when the selected button has no mapping. Otherwise the entry is
    deleted from the mapping object of the remapper, whether
    [save_config] then returns or raises: the button is no longer
    dispatched and the other mappings are as before; when [save_config]
    returns, the file holds the text of the remaining document.
    Removing a mapping that was just added for a button without one
    gives back the document as it was. *)
Theorem remove_mapping_effect
    (codec : JsonCodec) (w : world) (self : ControllerRemapper)
    (button : string) (d : gmap string string) :
  heap w !! mappings self = Some d ->
  (d !! button = None -> remove_mapping w self button = (w, Returned))
  /\ (is_Some (d !! button) ->
      let w' := fst (remove_mapping w self button) in
      heap w' !! mappings self = Some (delete button d)
      /\ (forall l, l <> mappings self -> heap w' !! l = heap w !! l)
      /\ dispatch_mapped w' self button = []
      /\ (forall name, name <> button ->
            mappings_get w' self name = mappings_get w self name)
      /\ (snd (remove_mapping w self button) = Returned ->
          text <$> config_file w' = Some (json_dump (delete button d))))
  /\ (forall input,
        d !! button = None -> button <> "" -> all_space input = false ->
        heap (fst (remove_mapping (fst (add_mapping w self button input))
                     self button))
          !! mappings self = Some d).
Proof.
  intros Hd.
  assert (Hremove : forall w0 d0,
    heap w0 !! mappings self = Some d0 -> is_Some (d0 !! button) ->
    let w' := fst (remove_mapping w0 self button) in
    heap w' !! mappings self = Some (delete button d0)
    /\ (forall l, l <> mappings self -> heap w' !! l = heap w0 !! l)
    /\ (snd (remove_mapping w0 self button) = Returned ->
        text <$> config_file w' = Some (json_dump (delete button d0)))).
  { intros w0 d0 Hd0 [v Hv]. cbn zeta. unfold remove_mapping.
    rewrite Hd0. cbn [mbind option_bind]. rewrite Hv.
    destruct (dict_delitem_lookup w0 (mappings self) button d0 Hd0)
      as (Hnew & Hother & Hfile & _).
    destruct (save_config_cases (dict_delitem w0 (mappings self) button)
                self) as [Hheap Hsave].
    rewrite Hheap. split; [done|]. split; [done|].
    intros Hret. rewrite Hret in Hsave. by rewrite Hsave, Hnew. }
  split; [|split].
  - intros Hnone. unfold remove_mapping. rewrite Hd.
    cbn [mbind option_bind]. by rewrite Hnone.
  - intros Hsome. destruct (Hremove w d Hd Hsome) as (Hnew & Hother & Hfile).
    cbn zeta. split; [done|]. split; [done|]. split; [|split; [|done]].
    + unfold dispatch_mapped, mappings_get. rewrite Hnew. cbn.
      by rewrite lookup_delete_eq.
    + intros name Hne. unfold mappings_get. rewrite Hnew, Hd. cbn.
      by rewrite lookup_delete_ne.
  - intros input Hnone Hbutton Hinput.
    assert (Hstrip : Py.strip input <> "").
    { rewrite strip_all_space. by rewrite Hinput. }
    assert (Hadd : heap (fst (add_mapping w self button input))
                     !! mappings self
                   = Some (<[button := Py.strip input]> d)).
    { unfold add_mapping. cbn zeta.
      rewrite (proj2 (truthy_true button) Hbutton).
      rewrite (proj2 (truthy_true _) Hstrip). cbn [andb].
      rewrite save_config_heap.
      by apply dict_setitem_lookup. }
    destruct (Hremove _ _ Hadd) as (Hnew & _).
    { rewrite lookup_insert_eq. by eexists. }
    rewrite Hnew. f_equal. by apply delete_insert_id.
Qed.

Lemma remove_mapping_effect_witness :
  heap example_world !! mappings new_remapper = Some DEFAULT_MAPPINGS
  /\ DEFAULT_MAPPINGS !! "LEFT_STICK" = None
  /\ is_Some (DEFAULT_MAPPINGS !! "B")
  /\ @remove_mapping JsonText.codec example_world new_remapper "LEFT_STICK"
     = (example_world, Returned)
  /\ dispatch_mapped
       (fst (@remove_mapping JsonText.codec example_world new_remapper "B"))
       new_remapper "B" = [].
Proof.
  assert (Hnone : DEFAULT_MAPPINGS !! "LEFT_STICK" = None) by reflexivity.
  assert (Hsome : is_Some (DEFAULT_MAPPINGS !! "B")) by (by eexists).
  split; [exact example_world_mappings|].
  split; [exact Hnone|]. split; [exact Hsome|]. split.
  - exact (proj1 (remove_mapping_effect JsonText.codec example_world
                    new_remapper "LEFT_STICK" DEFAULT_MAPPINGS
                    example_world_mappings) Hnone).
  - exact (proj1 (proj2 (proj2
             (proj1 (proj2 (remove_mapping_effect JsonText.codec example_world
                              new_remapper "B" DEFAULT_MAPPINGS
                              example_world_mappings))
                Hsome)))).
Defined.

(** ** Who owns a mapping object *)

Lemma add_mapping_frame `{JsonCodec} w self button input l :
  l <> mappings self ->
  heap (fst (add_mapping w self button input)) !! l = heap w !! l.
Proof.
  intros Hne. unfold add_mapping. cbn zeta. destruct (_ && _); [|done].
  rewrite save_config_heap. unfold dict_setitem. cbn [heap set_heap].
  by rewrite lookup_alter_ne.
Qed.

Lemma remove_mapping_frame `{JsonCodec} w self button l :
  l <> mappings self ->
  heap (fst (remove_mapping w self button)) !! l = heap w !! l.
Proof.
  intros Hne. unfold remove_mapping. destruct (_ ≫= _); [|done].
  rewrite save_config_heap. unfold dict_delitem. cbn [heap set_heap].
  by rewrite lookup_alter_ne.
Qed.

Lemma dialog_session_frame `{JsonCodec} w self actions l :
  l <> mappings self ->
  heap (dialog_session w self actions) !! l = heap w !! l.
Proof.
  intros Hne. revert w. induction actions as [|a actions IH]; intros w;
    [done|].
  destruct a; cbn [dialog_session]; rewrite IH;
    by rewrite ?add_mapping_frame, ?remove_mapping_frame.
Qed.

Lemma load_config_fresh `{JsonCodec} w :
  heap w !! fst (load_config w) = None
  /\ is_Some (heap (snd (load_config w)) !! fst (load_config w))
  /\ (forall l, l <> fst (load_config w) ->
        heap (snd (load_config w)) !! l = heap w !! l).
Proof.
  unfold load_config, dict_copy.
  repeat match goal with
         | |- context [match ?x with _ => _ end] => destruct x
         | |- context [if ?b then _ else _] => destruct b
         end;
    match goal with
    | |- context [alloc ?w0 ?d0] =>
        pose proof (alloc_spec w0 d0) as Ha;
        destruct (alloc w0 d0) as [l0 w0'];
        destruct Ha as (? & ? & ? & _); cbn [fst snd]; by eauto
    end.
Qed.

(** X14: every remapper owns its mapping object. [__init__] stores an
    object that did not exist before, so it is neither the built-in
    [DEFAULT_MAPPINGS] nor the object of a remapper created earlier, and
    creating it changes no other object. Whatever the user does in a
    session of the settings dialog, in any order and however often, and
    whether or not the saves succeed, only the object of the dialog's
    remapper is written: the built-in defaults stay intact, and so does
    the object of any other remapper. *)
Theorem dialog_session_writes_own_object
    (codec : JsonCodec) (w : world) (self : ControllerRemapper)
    (actions : list dialog_action) :
  (forall l, l <> mappings self ->
     heap (dialog_session w self actions) !! l = heap w !! l)
  /\ (heap w !! mappings (fst (init w)) = None
      /\ is_Some (heap (snd (init w)) !! mappings (fst (init w)))
      /\ forall l, l <> mappings (fst (init w)) ->
           heap (snd (init w)) !! l = heap w !! l)
  /\ (default_intact w ->
      default_intact (dialog_session (snd (init w)) (fst (init w)) actions))
  /\ (is_Some (heap w !! mappings self) ->
      mappings (fst (init w)) <> mappings self
      /\ heap (dialog_session (snd (init w)) (fst (init w)) actions)
           !! mappings self
         = heap w !! mappings self).
Proof.
  pose proof (load_config_fresh w) as Hload.
  assert (Hinit : init w
                  = ({| mappings := fst (load_config w); running := false;
                        js_device := None; last_state := ∅ |},
                     snd (load_config w))).
  { unfold init. by destruct (load_config w). }
  rewrite Hinit. cbn [fst snd mappings].
  destruct Hload as (Hnew & Hsome & Hother).
  split; [|split; [done|split]].
  - intros l Hne. by apply dialog_session_frame.
  - intros Hdef. unfold default_intact in *.
    assert (DEFAULT_MAPPINGS_loc <> fst (load_config w)) as Hne
      by (intros Heq; rewrite <- Heq in Hnew; congruence).
    rewrite dialog_session_frame by done. by rewrite Hother.
  - intros [d Hd].
    assert (mappings self <> fst (load_config w)) as Hne
      by (intros Heq; rewrite <- Heq in Hnew; congruence).
    split; [done|].
    rewrite dialog_session_frame by done. by apply Hother.
Qed.

(** X15: when the configuration file exists, can be read and parses,
    [load_config] returns a new object holding the document of the file
    and nothing else: the built-in defaults are not merged in, so that a
    button or direction that the file does not mention has no mapping
    and is not dispatched, although a default exists for it. The file
    and all other objects are left as they are. *)
Theorem load_config_reads_file_only
    (codec : JsonCodec) (w : world) (f : file_node)
    (d : gmap string string) :
  config_file w = Some f -> readable f = true ->
  json_load (text f) = Some d ->
  let '(l, w') := load_config w in
  heap w' !! l = Some d
  /\ heap w !! l = None
  /\ (forall l', l' <> l -> heap w' !! l' = heap w !! l')
  /\ config_file w' = config_file w
  /\ (forall self name,
        mappings self = l -> d !! name = None ->
        mappings_get w' self name = None
        /\ dispatch_mapped w' self name = []).
Proof.
  intros Hf Hr Hp. rewrite (load_config_parsed w f d Hf Hr Hp).
  pose proof (alloc_spec w d) as Ha. destruct (alloc w d) as [l w'].
  destruct Ha as (Hnew & Hl & Hother & Hfile & _).
  repeat (split; [done|]).
  intros self name Hm Hnone.
  unfold dispatch_mapped, mappings_get. rewrite Hm, Hl. cbn.
  by rewrite Hnone.
Qed.

Lemma load_config_reads_file_only_witness :
  JsonText.load "{}" = Some ∅
  /\ is_Some (DEFAULT_MAPPINGS !! "B")
  /\ dispatch_mapped
       (snd (@load_config JsonText.codec
               (initial_world
                  (Some {| readable := true; writable := true; text := "{}" |})
                  true)))
       {| mappings :=
            fst (@load_config JsonText.codec
                   (initial_world
                      (Some {| readable := true; writable := true;
                               text := "{}" |})
                      true));
          running := false; js_device := None; last_state := ∅ |}
       "B"
     = [].
Proof.
  assert (Hparse : JsonText.load "{}" = Some ∅) by reflexivity.
  split; [exact Hparse|]. split; [by eexists|].
  pose proof (load_config_reads_file_only JsonText.codec
                (initial_world
                   (Some {| readable := true; writable := true; text := "{}" |})
                   true)
                {| readable := true; writable := true; text := "{}" |} ∅
                eq_refl eq_refl Hparse) as Hload.
  destruct (@load_config JsonText.codec _) as [l w'].
  exact (proj2 (proj2 (proj2 (proj2 (proj2 Hload)))
                  {| mappings := l; running := false; js_device := None;
                     last_state := ∅ |} "B" eq_refl (lookup_empty _))).
Defined.

(** ** The menu actions *)

(** X16: [start_remapper] creates the remapper, and with it loads the
    configuration, on its first call only: later calls reuse the object
    with its mappings and flags and leave the world alone. The call
    always reports that the remapper was started, whether or not a
    controller will be found, since [start] returns [True] on both of
    its paths. A call while the remapper runs creates no second worker
    thread; a call after [stop_remapper] creates one again, for the same
    object. [stop_remapper] before any start does nothing and reports
    nothing. *)
Theorem start_remapper_creates_once
    (codec : JsonCodec) (w : world) (remapper : remapper_global) :
  let '(remapper1, w1, spawned, tip) := start_remapper w remapper in
  tip = "Controller remapper started"
  /\ (exists r1,
        remapper1 = Some r1 /\ running r1 = true
        /\ match remapper with
           | Some r =>
               w1 = w /\ mappings r1 = mappings r
               /\ last_state r1 = last_state r
               /\ js_device r1 = js_device r
               /\ spawned = negb (running r)
           | None =>
               r1 = set_running (fst (init w)) true /\ w1 = snd (init w)
               /\ spawned = true
           end)
  /\ start_remapper w1 remapper1 = (remapper1, w1, false, tip)
  /\ (exists stopped,
        stop_remapper remapper1
        = (Some stopped, Some "Controller remapper stopped")
        /\ running stopped = false
        /\ start_remapper w1 (Some stopped) = (remapper1, w1, true, tip))
  /\ stop_remapper None = (None, None).
Proof.
  unfold start_remapper.
  assert (Hstart : forall r,
    exists r1, start r = (r1, negb (running r)) /\ running r1 = true
               /\ mappings r1 = mappings r /\ last_state r1 = last_state r
               /\ js_device r1 = js_device r
               /\ start r1 = (r1, false)
               /\ start (stop r1) = (r1, true)
               /\ (running r = false -> r1 = set_running r true)).
  { intros r. unfold start, stop. destruct (running r) eqn:Hrun.
    - exists r. rewrite Hrun. cbn [negb running set_running].
      repeat (split; [done|]). split; [|done].
      destruct r. cbn in Hrun |- *. by rewrite Hrun.
    - exists (set_running r true). cbn [negb running set_running].
      repeat (split; [done|]). done. }
  destruct remapper as [r|].
  - destruct (Hstart r) as (r1 & Hs & Hrun & Hm & Hl & Hd & Hagain & Hre & _).
    rewrite Hs. split; [done|]. split; [by exists r1|].
    rewrite Hagain. split; [done|]. split; [|done].
    exists (stop r1). cbn [stop_remapper]. split; [done|]. split; [done|].
    by rewrite Hre.
  - destruct (init w) as [r0 w0] eqn:Hinit. cbn [fst snd].
    assert (Hr0 : running r0 = false).
    { unfold init in Hinit. destruct (load_config w).
      by injection Hinit as <- _. }
    destruct (Hstart r0) as (r1 & Hs & Hrun & Hm & Hl & Hd & Hagain & Hre & Hnew).
    rewrite Hs, Hr0. cbn [negb]. split; [done|].
    split; [exists r1; by rewrite (Hnew Hr0)|].
    rewrite Hagain. split; [done|]. split; [|done].
    exists (stop r1). cbn [stop_remapper]. split; [done|]. split; [done|].
    by rewrite Hre.
Qed.

(** ** Key names *)

Lemma upper_char_idemp c : Py.upper_char (Py.upper_char c) = Py.upper_char c.
Proof. by destruct c as [[] [] [] [] [] [] [] []]. Qed.

Lemma upper_lower_char c : Py.upper_char (Py.lower_char c) = Py.upper_char c.
Proof. by destruct c as [[] [] [] [] [] [] [] []]. Qed.

Lemma lower_upper_char c : Py.lower_char (Py.upper_char c) = Py.lower_char c.
Proof. by destruct c as [[] [] [] [] [] [] [] []]. Qed.

Lemma isspace_upper_char c : Py.isspace (Py.upper_char c) = Py.isspace c.
Proof. by destruct c as [[] [] [] [] [] [] [] []]. Qed.

Lemma isspace_lower_char c : Py.isspace (Py.lower_char c) = Py.isspace c.
Proof. by destruct c as [[] [] [] [] [] [] [] []]. Qed.

Lemma plus_upper_char c :
  Ascii.eqb (Py.upper_char c) "+" = Ascii.eqb c "+".
Proof. by destruct c as [[] [] [] [] [] [] [] []]. Qed.

Lemma plus_lower_char c :
  Ascii.eqb (Py.lower_char c) "+" = Ascii.eqb c "+".
Proof. by destruct c as [[] [] [] [] [] [] [] []]. Qed.

Lemma map_chars_compose f g s :
  Py.map_chars f (Py.map_chars g s) = Py.map_chars (fun c => f (g c)) s.
Proof. induction s as [|c r IH]; [done|]. cbn. by rewrite IH. Qed.

Lemma map_chars_ext f g s :
  (forall c, f c = g c) -> Py.map_chars f s = Py.map_chars g s.
Proof.
  intros Hfg. induction s as [|c r IH]; [done|]. cbn. by rewrite Hfg, IH.
Qed.

Lemma map_chars_length f s :
  String.length (Py.map_chars f s) = String.length s.
Proof. induction s as [|c r IH]; [done|]. cbn. by rewrite IH. Qed.

Lemma split_map_chars f sep s :
  (forall c, Ascii.eqb (f c) sep = Ascii.eqb c sep) ->
  Py.split sep (Py.map_chars f s) = map (Py.map_chars f) (Py.split sep s).
Proof.
  intros Hsep. induction s as [|c r IH]; [done|].
  cbn [Py.map_chars Py.split]. rewrite Hsep, IH.
  destruct (Ascii.eqb c sep); [done|]. by destruct (Py.split sep r).
Qed.

Lemma lstrip_map_chars f s :
  (forall c, Py.isspace (f c) = Py.isspace c) ->
  Py.lstrip (Py.map_chars f s) = Py.map_chars f (Py.lstrip s).
Proof.
  intros Hspace. induction s as [|c r IH]; [done|].
  cbn [Py.map_chars Py.lstrip]. rewrite Hspace.
  by destruct (Py.isspace c).
Qed.

Lemma rstrip_map_chars f s :
  (forall c, Py.isspace (f c) = Py.isspace c) ->
  Py.rstrip (Py.map_chars f s) = Py.map_chars f (Py.rstrip s).
Proof.
  intros Hspace. induction s as [|c r IH]; [done|].
  cbn [Py.map_chars Py.rstrip]. rewrite IH, Hspace.
  destruct (Py.rstrip r); [|done]. by destruct (Py.isspace c).
Qed.

Lemma strip_map_chars f s :
  (forall c, Py.isspace (f c) = Py.isspace c) ->
  Py.strip (Py.map_chars f s) = Py.map_chars f (Py.strip s).
Proof.
  intros Hspace. unfold Py.strip.
  by rewrite lstrip_map_chars, rstrip_map_chars.
Qed.

Lemma lower_upper s : Py.lower (Py.upper s) = Py.lower s.
Proof.
  unfold Py.lower, Py.upper. rewrite map_chars_compose.
  apply map_chars_ext, lower_upper_char.
Qed.

Lemma upper_lower s : Py.upper (Py.lower s) = Py.upper s.
Proof.
  unfold Py.lower, Py.upper. rewrite map_chars_compose.
  apply map_chars_ext, upper_lower_char.
Qed.

Lemma upper_idemp s : Py.upper (Py.upper s) = Py.upper s.
Proof.
  unfold Py.upper. rewrite map_chars_compose.
  apply map_chars_ext, upper_char_idemp.
Qed.

(** ** Key codes under a binding *)

Lemma eval_table_names attr entries table :
  eval_table attr entries = Some table -> table.*1 = entries.*1.
Proof.
  revert table. induction entries as [|[name a] entries IH]; intros table.
  - by intros [= <-].
  - cbn [eval_table]. destruct (attr a) as [code|]; [|done].
    destruct (eval_table attr entries) as [rest|]; [|done].
    intros [= <-]. cbn. by rewrite (IH rest).
Qed.

Lemma eval_table_Some attr entries :
  is_Some (eval_table attr entries)
  <-> Forall (fun entry : string * string => is_Some (attr entry.2)) entries.
Proof.
  induction entries as [|[name a] entries IH].
  - split; [by constructor|by eexists].
  - cbn [eval_table]. rewrite Forall_cons, <- IH. cbn [snd].
    destruct (attr a) as [code|].
    + destruct (eval_table attr entries) as [rest|].
      * split; [intros _; split; by eexists|by eexists].
      * split; [by intros [? ?]|by intros [_ [? ?]]].
    + split; [by intros [? ?]|by intros [[? ?] _]].
Qed.

Lemma eval_table_lookup attr entries table name a :
  eval_table attr entries = Some table -> NoDup entries.*1 ->
  (name, a) ∈ entries ->
  (list_to_map table : gmap string Z) !! name = attr a.
Proof.
  revert table. induction entries as [|[name' a'] entries IH];
    intros table Htable Hnodup Hin.
  - by apply elem_of_nil in Hin.
  - cbn [eval_table] in Htable.
    destruct (attr a') as [code|] eqn:Hcode; [|done].
    destruct (eval_table attr entries) as [rest|] eqn:Hrest; [|done].
    injection Htable as <-. cbn in Hnodup.
    apply NoDup_cons in Hnodup as [Hfresh Hnodup].
    apply elem_of_cons in Hin as [[= -> ->]|Hin].
    + cbn. by rewrite lookup_insert_eq.
    + assert (name <> name') as Hne.
      { intros ->. apply Hfresh.
        apply (list_elem_of_fmap_2 fst) in Hin. done. }
      cbn. rewrite lookup_insert_ne by done. by apply IH.
Qed.

Lemma special_key_attrs_names : special_key_attrs.*1 = special_key_names.
Proof. reflexivity. Qed.

Lemma special_key_names_NoDup : NoDup special_key_names.
Proof. by apply (bool_decide_unpack (NoDup special_key_names)). Qed.

Lemma special_key_names_long name :
  name ∈ special_key_names -> (String.length name =? 1)%nat = false.
Proof.
  unfold special_key_names. intros Hin.
  repeat (apply elem_of_cons in Hin as [->|Hin]; [done|]).
  by apply elem_of_nil in Hin.
Qed.

Lemma eval_table_missing b :
  ~ has_key_attrs b -> eval_table (Qt_attr b) special_key_attrs = None.
Proof.
  intros Hnot.
  destruct (eval_table (Qt_attr b) special_key_attrs) as [table|] eqn:Ht;
    [|done].
  exfalso. apply Hnot. apply eval_table_Some. by eexists.
Qed.

Lemma bound_get_key_code_names b key :
  has_key_attrs b ->
  (String.length key =? 1)%nat = false ->
  exists code,
    Bound.get_key_code b key = Value code
    /\ (is_Some code <-> Py.lower key ∈ special_key_names)
    /\ (forall a, (Py.lower key, a) ∈ special_key_attrs ->
                  code = Qt_attr b a).
Proof.
  intros Hattrs Hlen. unfold Bound.get_key_code. cbn zeta. rewrite Hlen.
  apply eval_table_Some in Hattrs as [table Htable]. rewrite Htable.
  eexists. split; [done|]. split.
  - rewrite <- special_key_attrs_names, <- (eval_table_names _ _ _ Htable).
    destruct (decide (Py.lower key ∈ table.*1)) as [Hin|Hnot].
    + split; [done|]. intros _.
      apply not_eq_None_Some. intros Hnone.
      by apply not_elem_of_list_to_map in Hnone.
    + apply not_elem_of_list_to_map in Hnot. rewrite Hnot.
      split; [by intros [? ?]|].
      intros Hin. apply not_elem_of_list_to_map in Hnot. done.
  - intros a Hin. apply (eval_table_lookup _ _ _ _ _ Htable); [|done].
    rewrite special_key_attrs_names. apply special_key_names_NoDup.
Qed.

Lemma resolves_in_code b key code :
  Py.lower key = key -> ~ resolves_in b key ->
  Bound.get_key_code b key = Value code -> code = None.
Proof.
  intros Hlow Hnot. unfold Bound.get_key_code. cbn zeta. rewrite Hlow.
  destruct (String.length key =? 1)%nat eqn:Hlen.
  - apply Nat.eqb_eq in Hlen.
    destruct key as [|c [|c' r]]; try discriminate.
    intros [= <-].
    destruct (Qt_attr b _) as [k|] eqn:Hk; [|done].
    exfalso. apply Hnot. left. exists c. by rewrite Hk.
  - destruct (eval_table (Qt_attr b) special_key_attrs) as [table|] eqn:Ht;
      [|done].
    intros [= <-].
    destruct (decide (key ∈ table.*1)) as [Hin|Hin].
    + exfalso. apply Hnot. right.
      by rewrite <- special_key_attrs_names, <- (eval_table_names _ _ _ Ht).
    + by apply not_elem_of_list_to_map in Hin.
Qed.

Lemma empty_key_unresolved b : ~ resolves_in b "".
Proof.
  intros [(c & Hc & _)|Hin]; [done|].
  unfold special_key_names in Hin.
  repeat (apply elem_of_cons in Hin as [Hin|Hin]; [done|]).
  by apply elem_of_nil in Hin.
Qed.

Lemma bound_get_key_code_upper b key :
  Bound.get_key_code b (Py.upper key) = Bound.get_key_code b key.
Proof.
  unfold Bound.get_key_code. cbn zeta. rewrite lower_upper, upper_idemp.
  unfold Py.upper at 1. by rewrite map_chars_length.
Qed.

Lemma bound_get_key_code_lower b key :
  Bound.get_key_code b (Py.lower key) = Bound.get_key_code b key.
Proof.
  unfold Bound.get_key_code. cbn zeta. rewrite lower_idemp, upper_lower.
  unfold Py.lower at 1. by rewrite map_chars_length.
Qed.

(** X17: what [get_key_code] does depends on the attributes that the
    class [Qt] of the binding has. A key of one character is looked up
    with [getattr] and a default, so the call never raises and gives the
    attribute [Key_] followed by the upper-case character, if there is
    one. For every other key the table is built first: when one of the
    attributes it reads is missing, the call raises [AttributeError]
    whatever the key is; when all are there, the key resolves exactly
    when it is, in any mix of case, one of the 27 names of the table,
    and then to the attribute written for that name. The case of an
    ASCII key does not matter (beyond ASCII the case maps of Python
    differ from those of the embedding). *)
Theorem get_key_code_domain (b : qt_binding) (key : string) :
  is_ascii key = true ->
  (String.length key = 1%nat ->
   Bound.get_key_code b key = Value (Qt_attr b ("Key_" +:+ Py.upper key)))
  /\ (String.length key <> 1%nat -> ~ has_key_attrs b ->
      Bound.get_key_code b key = Throws "AttributeError")
  /\ (String.length key <> 1%nat -> has_key_attrs b ->
      exists code,
        Bound.get_key_code b key = Value code
        /\ (is_Some code <-> Py.lower key ∈ special_key_names)
        /\ (forall a, (Py.lower key, a) ∈ special_key_attrs ->
                      code = Qt_attr b a))
  /\ Bound.get_key_code b (Py.upper key) = Bound.get_key_code b key
  /\ Bound.get_key_code b (Py.lower key) = Bound.get_key_code b key.
Proof.
  intros _. split; [|split; [|split; [|split]]].
  - intros Hlen. unfold Bound.get_key_code. cbn zeta. by rewrite Hlen.
  - intros Hlen Hnot. unfold Bound.get_key_code. cbn zeta.
    apply Nat.eqb_neq in Hlen. rewrite Hlen.
    by rewrite eval_table_missing.
  - intros Hlen Hattrs. apply Nat.eqb_neq in Hlen.
    by apply bound_get_key_code_names.
  - apply bound_get_key_code_upper.
  - apply bound_get_key_code_lower.
Qed.

Lemma spec_binding_has_key_attrs : has_key_attrs spec_binding.
Proof. unfold has_key_attrs, special_key_attrs. repeat constructor; by eexists. Qed.

Lemma scoped_binding_lacks_key_attrs : ~ has_key_attrs scoped_binding.
Proof. intros Hattrs. apply Forall_cons in Hattrs as [[code Hcode] _]. done. Qed.

Lemma get_key_code_domain_witness :
  is_ascii "Return" = true
  /\ has_key_attrs spec_binding
  /\ Bound.get_key_code spec_binding "RETURN"
     = Bound.get_key_code spec_binding "Return"
  /\ Bound.get_key_code scoped_binding "Return" = Throws "AttributeError".
Proof.
  split; [reflexivity|]. split; [exact spec_binding_has_key_attrs|]. split.
  - exact (proj1 (proj2 (proj2 (proj2
             (get_key_code_domain spec_binding "Return" eq_refl))))).
  - exact (proj1 (proj2 (get_key_code_domain scoped_binding "Return" eq_refl))
             ltac:(discriminate) scoped_binding_lacks_key_attrs).
Defined.

(** ** The events of a combination *)

Lemma str_in_decide m combo :
  Py.str_in m (spec_modifier_list combo)
  = bool_decide (m ∈ spec_modifier_set combo).
Proof.
  apply eq_true_iff_eq. rewrite str_in_elem_of, bool_decide_eq_true.
  unfold spec_modifier_set. by rewrite elem_of_list_to_set.
Qed.

Lemma bound_send_key_event_spec b focus combo :
  Bound.send_key_event b focus combo =
  match spec_primary_key combo with
  | Some key =>
      if Py.truthy key then
        match Bound.get_key_code b key with
        | Throws exc => ([], Raised exc)
        | Value key_code =>
            match truthy_code key_code, focus with
            | Some code, Some wd =>
                if QKeyEvent_attr b "KeyPress" && QKeyEvent_attr b "KeyRelease"
                then
                  ([ (wd, {| ev_type := KeyPress; ev_key := code;
                             ev_modifiers := spec_modifier_flags combo;
                             ev_text := "" |});
                     (wd, {| ev_type := KeyRelease; ev_key := code;
                             ev_modifiers := spec_modifier_flags combo;
                             ev_text := "" |}) ], Returned)
                else ([], Raised "AttributeError")
            | _, _ => ([], Returned)
            end
        end
      else ([], Returned)
  | None => ([], Returned)
  end.
Proof.
  unfold Bound.send_key_event.
  destruct (Py.truthy combo) eqn:Ht; cbn [negb].
  2: { apply truthy_false in Ht as ->. reflexivity. }
  rewrite parse_key_combination_spec. cbn zeta.
  destruct (spec_primary_key combo) as [key|]; [|done].
  destruct (Py.truthy key); [|done].
  destruct (Bound.get_key_code b key) as [key_code|exc]; [|done].
  destruct (truthy_code key_code) as [code|]; [|done].
  destruct focus as [wd|]; [|done].
  destruct (QKeyEvent_attr b "KeyPress"); cbn [negb andb]; [|done].
  destruct (QKeyEvent_attr b "KeyRelease"); cbn [negb]; [|done].
  unfold spec_modifier_flags. rewrite !str_in_decide.
  destruct (bool_decide ("ctrl" ∈ spec_modifier_set combo));
    destruct (bool_decide ("shift" ∈ spec_modifier_set combo));
    destruct (bool_decide ("alt" ∈ spec_modifier_set combo));
    reflexivity.
Qed.

(** Under the binding of the specification the two functions are those
    of the first part: they return, with the same key codes and the same
    events. *)
Lemma spec_binding_entries :
  eval_table (Qt_attr spec_binding) special_key_attrs
  = Some [ ("space", Qt.Key_Space);
           ("return", Qt.Key_Return);
           ("enter", Qt.Key_Enter);
           ("backspace", Qt.Key_Backspace);
           ("delete", Qt.Key_Delete);
           ("escape", Qt.Key_Escape);
           ("tab", Qt.Key_Tab);
           ("up", Qt.Key_Up);
           ("down", Qt.Key_Down);
           ("left", Qt.Key_Left);
           ("right", Qt.Key_Right);
           ("home", Qt.Key_Home);
           ("end", Qt.Key_End);
           ("pageup", Qt.Key_PageUp);
           ("pagedown", Qt.Key_PageDown);
           ("f1", Qt.Key_F1);
           ("f2", Qt.Key_F2);
           ("f3", Qt.Key_F3);
           ("f4", Qt.Key_F4);
           ("f5", Qt.Key_F5);
           ("f6", Qt.Key_F6);
           ("f7", Qt.Key_F7);
           ("f8", Qt.Key_F8);
           ("f9", Qt.Key_F9);
           ("f10", Qt.Key_F10);
           ("f11", Qt.Key_F11);
           ("f12", Qt.Key_F12) ].
Proof. vm_compute. reflexivity. Qed.

Lemma spec_binding_table :
  (fun table => list_to_map table : gmap string Z)
    <$> eval_table (Qt_attr spec_binding) special_key_attrs
  = Some special_keys.
Proof. rewrite spec_binding_entries. reflexivity. Qed.

Lemma spec_binding_one_char c :
  Qt_attr spec_binding ("Key_" +:+ String c "") = Qt.one_char_key c.
Proof.
  change ("Key_" +:+ String c "")
    with (String "K" (String "e" (String "y" (String "_" (String c ""))))).
  cbn [Qt_attr spec_binding Qt.getattr_Key].
  destruct (Qt.one_char_key c) as [code|]; [done|].
  apply not_elem_of_list_to_map_1.
  set (names := (_ <$> special_key_attrs).*1). vm_compute in names.
  subst names. intros Hin.
  repeat (apply elem_of_cons in Hin as [Hin|Hin]; [discriminate Hin|]).
  by apply elem_of_nil in Hin.
Qed.

Lemma bound_get_key_code_spec_binding key :
  Bound.get_key_code spec_binding key = Value (get_key_code key).
Proof.
  unfold Bound.get_key_code, get_key_code. cbn zeta.
  destruct (String.length key =? 1)%nat eqn:Hlen.
  - apply Nat.eqb_eq in Hlen.
    destruct key as [|c [|c' r]]; try discriminate.
    change (Py.upper (String c "")) with (String (Py.upper_char c) "").
    by rewrite spec_binding_one_char.
  - pose proof spec_binding_table as Htable.
    destruct (eval_table (Qt_attr spec_binding) special_key_attrs)
      as [table|]; [|discriminate Htable].
    change (Some (list_to_map table : gmap string Z) = Some special_keys)
      in Htable.
    injection Htable as Htable. rewrite Htable. reflexivity.
Qed.

Lemma bound_send_key_event_spec_binding focus combo :
  Bound.send_key_event spec_binding focus combo
  = (send_key_event focus combo, Returned).
Proof.
  unfold Bound.send_key_event, send_key_event.
  destruct (negb (Py.truthy combo)); [done|].
  destruct (parse_key_combination combo) as [mods [key|]]; [|done].
  destruct (Py.truthy key); [|done].
  rewrite bound_get_key_code_spec_binding.
  destruct (truthy_code (get_key_code key)); [|done].
  by destruct focus.
Qed.

(** X18: under every binding [send_key_event] sends either nothing or
    exactly two events, a key press followed by a key release, both to
    the widget that has the focus, with the same key code, the same
    modifier flags and an empty text; when it raises, nothing has been
    sent. Events are sent only when a widget has the focus and the
    primary key of the combination resolves to a code other than 0, and
    they are sent then if [QKeyEvent] has the two event types. The
    modifier flags are the sum of the Control, Shift and Alt flags of
    the modifiers that occur in the combination, however often and in
    whatever order they occur. *)
Theorem send_key_event_press_release
    (b : qt_binding) (focus : option widget) (combo : string) :
  let '(events, out) := Bound.send_key_event b focus combo in
  (events = []
   \/ exists wd key code,
        focus = Some wd /\ spec_primary_key combo = Some key
        /\ Bound.get_key_code b key = Value (Some code) /\ code <> 0
        /\ out = Returned
        /\ events =
           [ (wd, {| ev_type := KeyPress; ev_key := code;
                     ev_modifiers := spec_modifier_flags combo;
                     ev_text := "" |});
             (wd, {| ev_type := KeyRelease; ev_key := code;
                     ev_modifiers := spec_modifier_flags combo;
                     ev_text := "" |}) ])
  /\ (forall wd key code,
        focus = Some wd -> spec_primary_key combo = Some key ->
        Bound.get_key_code b key = Value (Some code) -> code <> 0 ->
        QKeyEvent_attr b "KeyPress" = true ->
        QKeyEvent_attr b "KeyRelease" = true ->
        out = Returned /\ length events = 2%nat).
Proof.
  rewrite bound_send_key_event_spec.
  destruct (spec_primary_key combo) as [key|]; [|split; [by left|done]].
  destruct (Py.truthy key) eqn:Hkey.
  2: { split; [by left|]. intros wd key' code _ [= <-] Hcode.
       apply truthy_false in Hkey as ->.
       by apply (resolves_in_code b "" _ eq_refl (empty_key_unresolved b))
         in Hcode. }
  destruct (Bound.get_key_code b key) as [key_code|exc] eqn:Hget.
  2: { split; [by left|]. intros wd key' code _ [= <-] Hc.
       by rewrite Hget in Hc. }
  destruct (truthy_code key_code) as [code|] eqn:Hcode.
  - pose proof (truthy_code_Some _ _ Hcode) as ->.
    assert (code <> 0) as Hne.
    { intros ->. done. }
    destruct focus as [wd|]; [|split; [by left|done]].
    destruct (QKeyEvent_attr b "KeyPress");
      destruct (QKeyEvent_attr b "KeyRelease"); cbn [andb];
      try (split; [by left|by intros ? ? ? ? ? ? ? ? ?]).
    split; [|done]. right. by exists wd, key, code.
  - split; [by left|]. intros wd key' code _ [= <-] Hc Hne.
    rewrite Hget in Hc. injection Hc as ->.
    cbn in Hcode. apply Z.eqb_neq in Hne. by rewrite Hne in Hcode.
Qed.

Lemma spec_tokens_map_chars f combo :
  (forall c, Ascii.eqb (f c) "+" = Ascii.eqb c "+") ->
  (forall c, Py.isspace (f c) = Py.isspace c) ->
  (forall c, Py.lower_char (f c) = Py.lower_char c) ->
  spec_tokens (Py.map_chars f combo) = spec_tokens combo.
Proof.
  intros Hplus Hspace Hlower. unfold spec_tokens.
  rewrite split_map_chars by done. rewrite map_map.
  apply map_ext. intros part. rewrite strip_map_chars by done.
  unfold Py.lower. rewrite map_chars_compose. by apply map_chars_ext.
Qed.

Lemma send_key_event_tokens b focus combo1 combo2 :
  spec_tokens combo1 = spec_tokens combo2 ->
  parse_key_combination combo1 = parse_key_combination combo2
  /\ Bound.send_key_event b focus combo1 = Bound.send_key_event b focus combo2.
Proof.
  intros Htokens.
  rewrite !parse_key_combination_spec, !bound_send_key_event_spec.
  unfold spec_modifier_flags, spec_modifier_set, spec_modifier_list,
    spec_primary_key.
  by rewrite Htokens.
Qed.

(** X19: the case of an ASCII combination does not matter: written in
    upper case or in lower case it parses to the same modifiers and the
    same primary key as the original, and under every binding the call
    of [send_key_event] sends the same events and ends in the same way.
    (Beyond ASCII the case maps of Python can change a token, and the
    statement is not made.) *)
Theorem key_combination_ignores_case
    (b : qt_binding) (focus : option widget) (combo : string) :
  is_ascii combo = true ->
  parse_key_combination (Py.upper combo) = parse_key_combination combo
  /\ parse_key_combination (Py.lower combo) = parse_key_combination combo
  /\ Bound.send_key_event b focus (Py.upper combo)
     = Bound.send_key_event b focus combo
  /\ Bound.send_key_event b focus (Py.lower combo)
     = Bound.send_key_event b focus combo.
Proof.
  intros _.
  assert (Hupper : spec_tokens (Py.upper combo) = spec_tokens combo).
  { apply spec_tokens_map_chars;
      [apply plus_upper_char|apply isspace_upper_char|apply lower_upper_char]. }
  assert (Hlower : spec_tokens (Py.lower combo) = spec_tokens combo).
  { apply spec_tokens_map_chars;
      [apply plus_lower_char|apply isspace_lower_char|apply lower_char_idemp]. }
  destruct (send_key_event_tokens b focus _ _ Hupper) as [Hp1 Hs1].
  destruct (send_key_event_tokens b focus _ _ Hlower) as [Hp2 Hs2].
  done.
Qed.

Lemma key_combination_ignores_case_witness :
  is_ascii "Ctrl+Shift+z" = true
  /\ parse_key_combination "CTRL+SHIFT+Z" = parse_key_combination "Ctrl+Shift+z"
  /\ Bound.send_key_event scoped_binding (Some 1%nat) "CTRL+SHIFT+Z"
     = Bound.send_key_event scoped_binding (Some 1%nat) "Ctrl+Shift+z".
Proof.
  split; [reflexivity|].
  pose proof (key_combination_ignores_case scoped_binding (Some 1%nat)
                "Ctrl+Shift+z" eq_refl) as (Hparse & _ & Hsend & _).
  split; [exact Hparse|exact Hsend].
Defined.

(** ** Keys that do not resolve *)

Lemma unknown123_unresolved b key :
  spec_primary_key "Ctrl+Unknown123" = Some key ->
  key = "unknown123" /\ ~ resolves_in b key.
Proof.
  intros [= <-]. split; [done|].
  intros [(c & Hc & _)|Hin]; [done|].
  unfold special_key_names in Hin.
  repeat (apply elem_of_cons in Hin as [Hin|Hin]; [done|]).
  by apply elem_of_nil in Hin.
Qed.

(** C7: under every Qt binding, a combination whose primary key token
    neither is a single character for which [Qt] has a key attribute
    nor is one of the special names sends no key event. Whether the
    call raises depends on the binding. It returns when the token has
    at most one character, or when [Qt] has every attribute that the
    table of [get_key_code] reads. When one of these attributes is
    missing, every token of two or more characters makes
    [get_key_code] raise [AttributeError] while it builds the table,
    before the lookup, and [send_key_event] lets the exception through.
    The combination [Ctrl+Unknown123] sends nothing under any binding;
    it returns under the binding of the specification and raises under
    a binding with scoped enumerators. *)
Theorem unresolved_key_sends_nothing_raises :
  (forall b focus combo,
     (forall key, spec_primary_key combo = Some key -> ~ resolves_in b key) ->
     fst (Bound.send_key_event b focus combo) = [])
  /\ (forall b focus combo,
        (forall key, spec_primary_key combo = Some key ->
           ~ resolves_in b key
           /\ ((String.length key <= 1)%nat \/ has_key_attrs b)) ->
        Bound.send_key_event b focus combo = ([], Returned))
  /\ (forall b focus combo key,
        spec_primary_key combo = Some key ->
        (1 < String.length key)%nat -> ~ has_key_attrs b ->
        Bound.send_key_event b focus combo = ([], Raised "AttributeError"))
  /\ (forall b key,
        spec_primary_key "Ctrl+Unknown123" = Some key ->
        key = "unknown123" /\ ~ resolves_in b key)
  /\ (forall focus,
        Bound.send_key_event spec_binding focus "Ctrl+Unknown123"
        = ([], Returned))
  /\ (forall focus,
        Bound.send_key_event scoped_binding focus "Ctrl+Unknown123"
        = ([], Raised "AttributeError")).
Proof.
  assert (Hlower : forall combo key,
    spec_primary_key combo = Some key -> Py.lower key = key).
  { intros combo key [Htok _]%spec_primary_key_token.
    by apply spec_tokens_lower in Htok. }
  assert (Hnone : forall b focus combo,
    (forall key, spec_primary_key combo = Some key -> ~ resolves_in b key) ->
    forall key, spec_primary_key combo = Some key ->
    Bound.send_key_event b focus combo =
    match Bound.get_key_code b key with
    | Throws exc => if Py.truthy key then ([], Raised exc) else ([], Returned)
    | Value _ => ([], Returned)
    end).
  { intros b focus combo Hun key Hkey.
    rewrite bound_send_key_event_spec, Hkey.
    pose proof (resolves_in_code b key) as Hcode.
    destruct (Bound.get_key_code b key) as [code|exc];
      [|by destruct (Py.truthy key)].
    rewrite (Hcode code) by eauto. by destruct (Py.truthy key). }
  assert (Hraise : forall b focus combo key,
    spec_primary_key combo = Some key ->
    (1 < String.length key)%nat -> ~ has_key_attrs b ->
    Bound.send_key_event b focus combo = ([], Raised "AttributeError")).
  { intros b focus combo key Hkey Hlen Hnot.
    rewrite bound_send_key_event_spec, Hkey.
    assert (Py.truthy key = true) as -> by (destruct key; [cbn in Hlen; lia|done]).
    unfold Bound.get_key_code. cbn zeta.
    assert ((String.length key =? 1)%nat = false) as ->
      by (apply Nat.eqb_neq; lia).
    by rewrite eval_table_missing. }
  split; [|split; [|split; [done|split; [|split]]]].
  - intros b focus combo Hun.
    pose proof (Hnone b focus combo Hun) as Hsend.
    pose proof (bound_send_key_event_spec b focus combo) as Hspec.
    destruct (spec_primary_key combo) as [key|].
    + rewrite (Hsend key eq_refl).
      destruct (Bound.get_key_code b key); [done|].
      by destruct (Py.truthy key).
    + by rewrite Hspec.
  - intros b focus combo Hun.
    pose proof (Hnone b focus combo (fun k Hk => proj1 (Hun k Hk))) as Hsend.
    pose proof (bound_send_key_event_spec b focus combo) as Hspec.
    destruct (spec_primary_key combo) as [key|]; [|by rewrite Hspec].
    + destruct (Hun key eq_refl) as [Hnot Hsafe].
      rewrite (Hsend key eq_refl).
      destruct (Bound.get_key_code b key) as [code|exc] eqn:Hget; [done|].
      destruct (Py.truthy key) eqn:Ht; [|done]. exfalso.
      unfold Bound.get_key_code in Hget. cbn zeta in Hget.
      destruct (String.length key =? 1)%nat eqn:Hlen; [done|].
      apply Nat.eqb_neq in Hlen.
      destruct Hsafe as [Hshort|Hattrs].
      * destruct key as [|c [|c' r]]; cbn in Hlen, Hshort, Ht; try done; lia.
      * apply eval_table_Some in Hattrs as [table Htable].
        by rewrite Htable in Hget.
  - intros b key. apply unknown123_unresolved.
  - intros focus.
    rewrite (Hnone spec_binding focus _
               (fun k Hk => proj2 (unknown123_unresolved spec_binding k Hk))
               "unknown123" eq_refl).
    pose proof (bound_get_key_code_names spec_binding "unknown123"
                  spec_binding_has_key_attrs eq_refl) as (code & -> & _).
    done.
  - intros focus.
    apply (Hraise scoped_binding focus _ "unknown123"); [done|cbn; lia|].
    apply scoped_binding_lacks_key_attrs.
Qed.

Lemma unresolved_key_sends_nothing_raises_witness :
  (forall key, spec_primary_key "Shift+hello" = Some key ->
     ~ resolves_in spec_binding key
     /\ ((String.length key <= 1)%nat \/ has_key_attrs spec_binding))
  /\ Bound.send_key_event spec_binding (Some 7%nat) "Shift+hello"
     = ([], Returned)
  /\ Bound.send_key_event scoped_binding (Some 7%nat) "Shift+hello"
     = ([], Raised "AttributeError").
Proof.
  assert (Hun : forall key, spec_primary_key "Shift+hello" = Some key ->
            ~ resolves_in spec_binding key
            /\ ((String.length key <= 1)%nat \/ has_key_attrs spec_binding)).
  { intros key [= <-]. split; [|right; exact spec_binding_has_key_attrs].
    intros [(c & Hc & _)|Hin]; [discriminate Hc|].
    unfold special_key_names in Hin.
    repeat (apply elem_of_cons in Hin as [Hin|Hin]; [discriminate Hin|]).
    by apply elem_of_nil in Hin. }
  split; [exact Hun|]. split.
  - exact (proj1 (proj2 unresolved_key_sends_nothing_raises)
             spec_binding (Some 7%nat) "Shift+hello" Hun).
  - refine (proj1 (proj2 (proj2 unresolved_key_sends_nothing_raises))
              scoped_binding (Some 7%nat) "Shift+hello" "hello" eq_refl _
              scoped_binding_lacks_key_attrs).
    cbn. lia.
Defined.

(** ** The record stream across iterations *)





(** ** Which flags a record writes *)

(** X22: a record writes the flags of its own control only. A button
    record leaves every flag but that of its button as it was, and an
    axis record leaves every flag but the two of its axis as they were;
    so the state of one button or stick never changes what another one
    dispatches. *)
Theorem process_event_writes_own_flags
    (w : world) (self : ControllerRemapper) (e : js_event) (key : string) :
  (Z.land (event_type e) JS_EVENT_BUTTON <> 0 ->
   key <> button_key (number e) ->
   last_state (fst (process_event w self e)) !! key = last_state self !! key)
  /\ (is_axis_record e = true ->
      key <> (axis_directions (number e)).1.1 ->
      key <> (axis_directions (number e)).2.1 ->
      last_state (fst (process_event w self e)) !! key
      = last_state self !! key).
Proof.
  split.
  - intros Hbit Hkey. unfold process_event.
    apply Z.eqb_neq in Hbit. rewrite Hbit. cbn [negb].
    unfold button_handling. cbn zeta. cbn [fst last_state set_last_state].
    fold (button_key (number e)). by rewrite lookup_insert_ne.
  - intros Haxis Hneg Hpos. rewrite is_axis_record_handling by done.
    unfold axis_handling, axis_pressed, axis_released, axis_directions in *.
    cbn zeta.
    destruct (number e =? 0); cbn [fst snd] in Hneg, Hpos.
    + repeat match goal with
             | |- context [if ?b then _ else _] => destruct b
             end;
        cbn [fst last_state set_last_state];
        by rewrite ?lookup_insert_ne, ?lookup_delete_ne.
    + destruct (number e =? 1).
      * repeat match goal with
               | |- context [if ?b then _ else _] => destruct b
               end;
          cbn [fst last_state set_last_state];
          by rewrite ?lookup_insert_ne, ?lookup_delete_ne.
      * done.
Qed.
